(** * Todo application: task store, authorization guard and task pages

  A shallow embedding of the task-handling code of the todo application:
  - the FastAPI route handlers and SQLModel query helpers
    ([create_task], [get_tasks], [get_user_tasks], [update_task],
    [delete_task]) over an explicit session state;
  - the React components [TaskForm], [TasksPage], [TaskList] and
    [TaskItem], as pure functions of their props and state.

  Identifiers follow the source.  Timestamps are integers (microseconds),
  strings are sequences of 8-bit code units. *)

From Stdlib Require Import ZArith String Ascii List Lia.
From stdpp Require Import base option list gmap strings sorting.

Set Warnings "-register-all".

Local Open Scope Z_scope.
Local Open Scope string_scope.
Local Open Scope list_scope.

(* ===================================================================== *)
(** ** JavaScript string primitives used by the form *)
(* ===================================================================== *)

Module JS.

(** Code units that [String.prototype.trim] strips: TAB, LF, VT, FF, CR,
    SPACE and NO-BREAK SPACE (the white space and line terminators that
    fit in one 8-bit code unit). *)
Definition is_whitespace (c : ascii) : bool :=
  let n := N_of_ascii c in
  (((9 <=? n) && (n <=? 13)) || (n =? 32) || (n =? 160))%N.

Fixpoint trimStart (s : string) : string :=
  match s with
  | EmptyString => EmptyString
  | String c s' => if is_whitespace c then trimStart s' else s
  end.

Fixpoint trimEnd (s : string) : string :=
  match s with
  | EmptyString => EmptyString
  | String c s' =>
      match trimEnd s' with
      | EmptyString => if is_whitespace c then EmptyString else String c EmptyString
      | r => String c r
      end
  end.

(** [s.trim()] *)
Definition trim (s : string) : string := trimEnd (trimStart s).

(** Truthiness of a string: every string but the empty one. *)
Definition truthy (s : string) : bool :=
  match s with EmptyString => false | String _ _ => true end.

(** [s || undefined] *)
Definition or_undefined (s : string) : option string :=
  if truthy s then Some s else None.

(** [c.repeat(n)] for a one-unit string. *)
Fixpoint repeat (c : ascii) (n : nat) : string :=
  match n with
  | O => EmptyString
  | S n' => String c (repeat c n')
  end.

(** [array.filter(pred)] *)
Definition filter {A : Type} (pred : A -> bool) (array : list A) : list A :=
  base.filter (fun x => Is_true (pred x)) array.

(** The first and the last code unit of a string, if it has any. *)
Definition head_unit (s : string) : option ascii :=
  match s with
  | EmptyString => None
  | String c _ => Some c
  end.

Fixpoint last_unit (s : string) : option ascii :=
  match s with
  | EmptyString => None
  | String c s' =>
      match last_unit s' with
      | None => Some c
      | Some d => Some d
      end
  end.

(** Neither the first nor the last code unit is white space. *)
Definition trimmed (s : string) : Prop :=
  forall c, head_unit s = Some c \/ last_unit s = Some c -> is_whitespace c = false.

End JS.

(* ===================================================================== *)
(** ** Back end: models, session and route handlers *)
(* ===================================================================== *)

Module Backend.

(** [class Task(SQLModel, table=True)] *)
Record Task := mkTask {
  id : option Z;               (* Optional[int], primary key, None until inserted *)
  user_id : string;
  title : string;
  description : option string;
  completed : bool;
  created_at : Z;
  updated_at : Z
}.

(** [class TaskCreate(BaseModel)]: [title: str], [description: Optional[str] = None] *)
Record TaskCreate := mkTaskCreate {
  tc_title : string;
  tc_description : option string
}.

(** One keyword argument passed to [update_task] through its [kwargs]; the keys are the
    fields of [class TaskUpdate(BaseModel)]. *)
Inductive kwarg :=
| kw_title (value : string)
| kw_description (value : option string)
| kw_completed (value : bool).

(** [setattr(task, key, value)] *)
Definition setattr (task : Task) (kw : kwarg) : Task :=
  match kw with
  | kw_title v =>
      mkTask (id task) (user_id task) v (description task) (completed task)
             (created_at task) (updated_at task)
  | kw_description v =>
      mkTask (id task) (user_id task) (title task) v (completed task)
             (created_at task) (updated_at task)
  | kw_completed v =>
      mkTask (id task) (user_id task) (title task) (description task) v
             (created_at task) (updated_at task)
  end.

Definition set_updated_at (task : Task) (now : Z) : Task :=
  mkTask (id task) (user_id task) (title task) (description task)
         (completed task) (created_at task) now.

Definition set_id (task : Task) (k : Z) : Task :=
  mkTask (Some k) (user_id task) (title task) (description task)
         (completed task) (created_at task) (updated_at task).

(** [HTTPException(status_code, detail)] *)
Inductive HTTPException := HTTP (status_code : Z) (detail : string).

Definition HTTP_403_FORBIDDEN : Z := 403.
Definition HTTP_404_NOT_FOUND : Z := 404.

(** Calls made on the SQLModel session, in the order they happen. *)
Inductive SessionOp :=
| OpExec | OpAdd | OpDelete | OpCommit | OpRefresh.

(** What a request handler runs against: the [tasks] table keyed by its
    primary key, the SERIAL sequence behind [id], the wall clock read by
    [datetime.utcnow] (its last reading and the time that elapses before
    each of the next readings), and the session calls made so far. *)
Record World := mkWorld {
  tasks : gmap Z Task;
  tasks_id_seq : Z;
  clock : Z;
  drift : list N;
  trace : list SessionOp
}.

Inductive result (A : Type) :=
| Return (a : A)
| Raise (e : HTTPException).
Arguments Return {A} a.
Arguments Raise {A} e.

(** Handlers thread the world and may raise. *)
Definition M (A : Type) : Type := World -> result A * World.

Definition ret {A} (a : A) : M A := fun w => (Return a, w).
Definition raise {A} (e : HTTPException) : M A := fun w => (Raise e, w).
Definition bind {A B} (m : M A) (k : A -> M B) : M B :=
  fun w => match m w with
           | (Return a, w') => k a w'
           | (Raise e, w') => (Raise e, w')
           end.

Notation "'let*' x ':=' m 'in' k" := (bind m (fun x => k))
  (at level 10, x name, m at level 100, k at level 200).

Definition log (op : SessionOp) (w : World) : World :=
  mkWorld (tasks w) (tasks_id_seq w) (clock w) (drift w) (trace w ++ [op]).

(** [datetime.utcnow()]: the clock moves on by the next elapsed time and
    is read. *)
Definition utcnow : M Z := fun w =>
  let now := clock w + Z.of_N (hd 0%N (drift w)) in
  (Return now, mkWorld (tasks w) (tasks_id_seq w) now (tl (drift w)) (trace w)).

(** [Task(user_id=user_id, **task_data.dict())]: the fields not given take
    their defaults, [completed=False] and one [default_factory] call each
    for [created_at] and [updated_at]. *)
Definition Task_init (uid : string) (task_data : TaskCreate) : M Task :=
  let* c := utcnow in
  let* u := utcnow in
  ret (mkTask None uid (tc_title task_data) (tc_description task_data) false c u).

(** [session.exec(select(Task).where(Task.id == task_id,
    Task.user_id == user_id)).first()] *)
Definition exec_first (task_id : Z) (uid : string) : M (option Task) := fun w =>
  (Return (match tasks w !! task_id with
           | Some t => if bool_decide (user_id t = uid) then Some t else None
           | None => None
           end),
   log OpExec w).

Definition newest_first (a b : Task) : Prop := created_at b <= created_at a.

#[global] Instance newest_first_dec a b : Decision (newest_first a b).
Proof. unfold newest_first. apply _. Defined.

(** [session.exec(select(Task).where(Task.user_id == user_id)
    .order_by(Task.created_at.desc())).all()] *)
Definition exec_all_desc (uid : string) : M (list Task) := fun w =>
  (Return (merge_sort newest_first
             (filter (fun t => user_id t = uid) (map_to_list (tasks w)).*2)),
   log OpExec w).

(** [session.add(task); session.commit(); session.refresh(task)]: a task
    without an id is inserted under the next value of the sequence, a
    loaded one is written back to its row; the refreshed object is the
    stored row.  The handlers hand over what they were given: neither
    they nor the request schemas check or trim a field.  The commit is
    that of a row the table takes; a write the database refuses (a title
    wider than its column, see [title_fits]) is outside this function. *)
Definition add_commit_refresh (task : Task) : M Task := fun w =>
  let w' := log OpRefresh (log OpCommit (log OpAdd w)) in
  match id task with
  | None =>
      let k := tasks_id_seq w in
      let row := set_id task k in
      (Return row,
       mkWorld (<[k := row]> (tasks w)) (k + 1) (clock w) (drift w) (trace w'))
  | Some k =>
      (Return task,
       mkWorld (<[k := task]> (tasks w)) (tasks_id_seq w) (clock w) (drift w) (trace w'))
  end.

(** [session.delete(task); session.commit()] *)
Definition delete_commit (task : Task) : M unit := fun w =>
  let w' := log OpCommit (log OpDelete w) in
  match id task with
  | None => (Return tt, w')
  | Some k =>
      (Return tt,
       mkWorld (delete k (tasks w)) (tasks_id_seq w) (clock w) (drift w) (trace w'))
  end.

(** [@router.post("")] of [/api/{user_id}/tasks] *)
Definition create_task (user_id_ : string) (task_data : TaskCreate)
    (authenticated_user_id : string) : M Task :=
  if bool_decide (user_id_ <> authenticated_user_id) then
    raise (HTTP HTTP_403_FORBIDDEN "Forbidden")
  else
    let* task := Task_init user_id_ task_data in
    add_commit_refresh task.

(** [get_user_tasks(session, user_id)] *)
Definition get_user_tasks (uid : string) : M (list Task) :=
  exec_all_desc uid.

(** [@router.get("/api/{user_id}/tasks")]; the part of the body the source
    elides (return the user's tasks) is the query of [get_user_tasks]. *)
Definition get_tasks (user_id_ : string) (authenticated_user_id : string)
    : M (list Task) :=
  if bool_decide (user_id_ <> authenticated_user_id) then
    raise (HTTP 403 "Forbidden")
  else
    get_user_tasks user_id_.

(** [update_task(session, task_id, user_id, **kwargs)] *)
Definition update_task (task_id : Z) (uid : string) (kwargs : list kwarg)
    : M (option Task) :=
  let* task := exec_first task_id uid in
  match task with
  | Some t =>
      let t := fold_left setattr kwargs t in
      let* now := utcnow in
      let* t := add_commit_refresh (set_updated_at t now) in
      ret (Some t)
  | None => ret None
  end.

(** [delete_task(session, task_id, user_id)] *)
Definition delete_task (task_id : Z) (uid : string) : M bool :=
  let* task := exec_first task_id uid in
  match task with
  | Some t => let* _ := delete_commit t in ret true
  | None => ret false
  end.

(** Modelled from the spec: the handler of GET /{user_id}/tasks/{id}, which
    is not among the sources.  "Returns the Task if it exists and belongs
    to owner_id; fails with NotFound otherwise."  It uses the select of
    [update_task] and [delete_task]. *)
Definition get_task (task_id : Z) (uid : string) : M Task :=
  let* task := exec_first task_id uid in
  match task with
  | Some t => ret t
  | None => raise (HTTP HTTP_404_NOT_FOUND "Task not found")
  end.

(** Modelled from the spec: the handler of PATCH
    /{user_id}/tasks/{id}/complete, which is not among the sources.  "If
    explicit is provided, sets completed to that value; if omitted, flips
    the current value.  Fails with NotFound per the same rule.  Sets
    updated_at=now." *)
Definition toggle_completion (task_id : Z) (uid : string)
    (explicit : option bool) : M Task :=
  let* task := exec_first task_id uid in
  match task with
  | Some t =>
      let value := match explicit with
                   | Some b => b
                   | None => negb (completed t)
                   end in
      let t := setattr t (kw_completed value) in
      let* now := utcnow in
      add_commit_refresh (set_updated_at t now)
  | None => raise (HTTP HTTP_404_NOT_FOUND "Task not found")
  end.

(** *** Requests and reachable worlds *)

(** A request that reaches the task store, with the verified subject
    already checked against the path. *)
Inductive request :=
| ReqCreate (uid : string) (task_data : TaskCreate)
| ReqUpdate (task_id : Z) (uid : string) (kwargs : list kwarg)
| ReqToggle (task_id : Z) (uid : string) (explicit : option bool)
| ReqDelete (task_id : Z) (uid : string).

(** The world after serving a request. *)
Definition serve (r : request) (w : World) : World :=
  match r with
  | ReqCreate uid task_data => snd (create_task uid task_data uid w)
  | ReqUpdate task_id uid kwargs => snd (update_task task_id uid kwargs w)
  | ReqToggle task_id uid explicit => snd (toggle_completion task_id uid explicit w)
  | ReqDelete task_id uid => snd (delete_task task_id uid w)
  end.

(** An empty table, a sequence that starts at 1, a clock at [t0]. *)
Definition initial (t0 : Z) (elapsed : list N) : World :=
  mkWorld ∅ 1 t0 elapsed [].

Inductive reachable : World -> Prop :=
| reachable_initial t0 elapsed : reachable (initial t0 elapsed)
| reachable_serve r w : reachable w -> reachable (serve r w).

(** What holds of every stored row: it sits under its own id, the id was
    drawn from the sequence, and its timestamps are ordered and not ahead
    of the clock. *)
Definition row_ok (w : World) (k : Z) (t : Task) : Prop :=
  id t = Some k /\ k < tasks_id_seq w
  /\ created_at t <= updated_at t /\ updated_at t <= clock w.

(** The row written by a successful [update_task] or [toggle_completion]
    at clock reading [now]. *)
Definition updated_row (t : Task) (kwargs : list kwarg) (now : Z) : Task :=
  set_updated_at (fold_left setattr kwargs t) now.

(** The next reading of the clock. *)
Definition next_reading (w : World) : Z :=
  clock w + Z.of_N (hd 0%N (drift w)).

(** *** Further queries, token verification and configuration *)

(** [session.exec(select(Task).where(Task.user_id == user_id,
    Task.completed == False)).all()]: no ordering is asked for. *)
Definition exec_all_incomplete (uid : string) : M (list Task) := fun w =>
  (Return (filter (fun t => user_id t = uid /\ completed t = false)
             (map_to_list (tasks w)).*2),
   log OpExec w).

(** [get_incomplete_tasks(session, user_id)] *)
Definition get_incomplete_tasks (uid : string) : M (list Task) :=
  exec_all_incomplete uid.

(** Truth value of a Python [str]: false for the empty string only. *)
Definition str_bool (s : string) : bool :=
  match s with EmptyString => false | String _ _ => true end.

(** [sub in s] on Python strings. *)
Fixpoint str_contains (sub s : string) : bool :=
  String.prefix sub s
  || match s with
     | EmptyString => false
     | String _ s' => str_contains sub s'
     end.

(** The connection configuration: [DATABASE_URL = os.getenv("DATABASE_URL")]
    followed by [if DATABASE_URL and "sslmode" not in DATABASE_URL:
    DATABASE_URL += "?sslmode=require"]. *)
Definition DATABASE_URL (getenv : option string) : option string :=
  match getenv with
  | Some url =>
      if str_bool url && negb (str_contains "sslmode" url)
      then Some (String.append url "?sslmode=require")
      else Some url
  | None => None
  end.

Definition HTTP_401_UNAUTHORIZED : Z := 401.


(** The exceptions that travel through [verify_token]. *)
Inductive exception :=
| ExpiredSignatureError                     (* jwt.ExpiredSignatureError *)
| InvalidTokenError                         (* any other error of jwt.decode *)
| HTTPException_raised (e : HTTPException)
| AttributeError (message : string).

(** What [jwt.decode] does with a token: it returns the payload or raises. *)
Inductive jwt_decoded :=
| JwtPayload (payload : gmap string string)
| JwtRaises (exc : exception).

(** [@app.exception_handler(Exception)]: the response to an exception that
    no other handler takes, as its status and detail. *)
Definition global_exception_handler (exc : exception) : HTTPException :=
  HTTP 500 "Internal server error".

Section Auth.
(** [jwt.decode(token, key, algorithms)] of the [jwt] module (PyJWT) and
    [settings.JWT_SECRET]. *)
Variable jwt_decode : string -> string -> list string -> jwt_decoded.
Variable JWT_SECRET : string.

(** The [try] block of [verify_token]; [token] is
    [credentials.credentials]. *)
Definition verify_token_try (token : string) : string + exception :=
  match jwt_decode token JWT_SECRET ["HS256"] with
  | JwtPayload payload =>
      match payload !! "sub" with
      | Some sub =>
          if str_bool sub then inl sub
          else inr (HTTPException_raised (HTTP HTTP_401_UNAUTHORIZED "Invalid token"))
      | None => inr (HTTPException_raised (HTTP HTTP_401_UNAUTHORIZED "Invalid token"))
      end
  | JwtRaises exc => inr exc
  end.

(** [verify_token(credentials)]: the [try] block under its two [except]
    clauses.  The first takes [jwt.ExpiredSignatureError].  Any other
    exception, the 401 raised inside the block included, comes to the
    second clause, [except jwt.JWTError], and the [jwt] module has no
    attribute of that name: looking it up raises [AttributeError]. *)
Definition verify_token (token : string) : string + exception :=
  match verify_token_try token with
  | inl sub => inl sub
  | inr ExpiredSignatureError =>
      inr (HTTPException_raised (HTTP HTTP_401_UNAUTHORIZED "Token expired"))
  | inr _ => inr (AttributeError "module 'jwt' has no attribute 'JWTError'")
  end.

(** The POST route as it is served: the dependency
    [authenticated_user_id = Depends(verify_token)] is resolved, then the
    handler runs.  Here [Raise] carries the status and detail of the error
    response: those of an [HTTPException], or what
    [global_exception_handler] answers for any other exception. *)
Definition post_tasks (token : string) (user_id_ : string) (task_data : TaskCreate)
    : M Task := fun w =>
  match verify_token token with
  | inl authenticated_user_id =>
      create_task user_id_ task_data authenticated_user_id w
  | inr (HTTPException_raised e) => (Raise e, w)
  | inr exc => (Raise (global_exception_handler exc), w)
  end.

End Auth.

(** The last title, description and completed value among keyword
    arguments, if any. *)
Definition given_title (kwargs : list kwarg) : option string :=
  fold_left (fun acc kw => match kw with kw_title v => Some v | _ => acc end)
            kwargs None.

Definition given_description (kwargs : list kwarg) : option (option string) :=
  fold_left (fun acc kw => match kw with kw_description v => Some v | _ => acc end)
            kwargs None.

Definition given_completed (kwargs : list kwarg) : option bool :=
  fold_left (fun acc kw => match kw with kw_completed v => Some v | _ => acc end)
            kwargs None.

(** Serving a sequence of requests, first to last. *)
Definition serve_all (rs : list request) (w : World) : World :=
  fold_left (fun w r => serve r w) rs w.

(** The user a request acts for. *)
Definition request_user (r : request) : string :=
  match r with
  | ReqCreate uid _ => uid
  | ReqUpdate _ uid _ => uid
  | ReqToggle _ uid _ => uid
  | ReqDelete _ uid => uid
  end.

End Backend.

(* ===================================================================== *)
(** ** Front end: TaskForm, TasksPage, TaskList, TaskItem *)
(* ===================================================================== *)

Module Frontend.

(** [interface Task] as the components use it. *)
Record Task := mkTask {
  id : Z;
  user_id : string;
  title : string;
  description : option string;   (* description?: string *)
  completed : bool;
  created_at : string;
  updated_at : string
}.

(** [interface User]: the fields the page reads. *)
Record User := mkUser {
  u_id : string;
  u_name : option string;
  u_email : string
}.

(** *** TaskForm *)

(** The [formData] state of the form. *)
Record FormData := mkFormData {
  fd_title : string;
  fd_description : string
}.

(** The object handed to [onSubmit]: [TaskCreate | TaskUpdate]. *)
Record SubmitData := mkSubmitData {
  sd_title : string;
  sd_description : option string
}.

Record FormState := mkFormState {
  formData : FormData;
  loading : bool;
  error : string
}.

(** What a rejected [onSubmit] promise carries. *)
Inductive Thrown :=
| ThrownError (message : string)
| ThrownOther.

(** [useState] initial values of the form for its [task] prop. *)
Definition TaskForm_init (task : option Task) : FormState :=
  mkFormState
    (mkFormData
       (match task with Some t => title t | None => "" end)
       (match task with
        | Some t => match description t with
                    | Some d => if JS.truthy d then d else ""
                    | None => ""
                    end
        | None => ""
        end))
    false "".

(** [handleSubmit], over the state [S] of the component that owns
    [onSubmit].  The result lists the objects passed to [onSubmit]. *)
Definition handleSubmit {S : Type}
    (onSubmit : SubmitData -> S -> option Thrown * S)
    (st : FormState) (s : S) : FormState * S * list SubmitData :=
  let fd := formData st in
  if negb (JS.truthy (JS.trim (fd_title fd))) then
    (mkFormState fd (loading st) "Title is required", s, [])
  else
    let submitData :=
      mkSubmitData (JS.trim (fd_title fd))
                   (JS.or_undefined (JS.trim (fd_description fd))) in
    match onSubmit submitData s with
    | (None, s') =>
        (mkFormState (mkFormData "" "") false "", s', [submitData])
    | (Some (ThrownError message), s') =>
        (mkFormState fd false message, s', [submitData])
    | (Some ThrownOther, s') =>
        (mkFormState fd false "Failed to save task", s', [submitData])
    end.

(** *** TaskItem *)

(** Rendered output: elements with their tag, class and children, check
    boxes and text. *)
Inductive Node :=
| Elem (tag : string) (className : string) (children : list Node)
| Checkbox (checked : bool)
| Text (s : string).

(** [{cond && (<jsx/>)}] for a boolean condition. *)
Definition when (cond : bool) (n : Node) : list Node :=
  if cond then [n] else [].

Section TaskItem.
(** [formatDateTime] of lib/utils. *)
Variable formatDateTime : string -> string.

Definition TaskItem (task : Task) (showConfirm : bool) : Node :=
  Elem "div" (if completed task then "task-card completed" else "task-card ")
    [Elem "div" "flex items-start gap-3"
       [Checkbox (completed task);
        Elem "div" "flex-1 min-w-0"
          ([Elem "h3"
              (if completed task then "text-lg font-medium line-through text-gray-500"
               else "text-lg font-medium text-gray-900")
              [Text (title task)]]
           ++ (match description task with
               | Some d =>
                   when (JS.truthy d)
                     (Elem "p"
                        (if completed task then "mt-1 text-sm text-gray-400"
                         else "mt-1 text-sm text-gray-600")
                        [Text d])
               | None => []
               end)
           ++ [Elem "div" "mt-2 flex items-center gap-4 text-xs text-gray-500"
                 ([Elem "span" "" [Text "Created: "; Text (formatDateTime (created_at task))]]
                  ++ when (negb (String.eqb (updated_at task) (created_at task)))
                       (Elem "span" ""
                          [Text "Updated: "; Text (formatDateTime (updated_at task))]))]);
        Elem "div" "flex gap-2"
          [Elem "button"
             "px-3 py-1 text-sm text-blue-600 hover:bg-blue-50 rounded-md transition-colors"
             [Text "Edit"];
           Elem "button"
             (if showConfirm
              then "px-3 py-1 text-sm rounded-md transition-colors bg-red-600 text-white hover:bg-red-700"
              else "px-3 py-1 text-sm rounded-md transition-colors text-red-600 hover:bg-red-50")
             [Text (if showConfirm then "Confirm?" else "Delete")]]]].
End TaskItem.

(** The [<p>] elements of a rendered tree, outermost first. *)
Fixpoint paragraphs (n : Node) : list Node :=
  match n with
  | Elem tag cls children =>
      (if String.eqb tag "p" then [n] else [])
      ++ (fix go (l : list Node) : list Node :=
            match l with
            | [] => []
            | c :: l' => paragraphs c ++ go l'
            end) children
  | Checkbox _ => []
  | Text _ => []
  end.

(** *** TaskList *)

Definition incompleteTasks (tasks : list Task) : list Task :=
  JS.filter (fun task => negb (completed task)) tasks.

Definition completedTasks (tasks : list Task) : list Task :=
  JS.filter (fun task => completed task) tasks.

Inductive TaskListView :=
| ViewLoading
| ViewEmpty
| ViewSections (todo : list Task) (done : list Task).

Definition TaskList (tasks : list Task) (loading_ : bool) : TaskListView :=
  if loading_ then ViewLoading
  else if (length tasks =? 0)%nat then ViewEmpty
  else ViewSections (incompleteTasks tasks) (completedTasks tasks).

(** *** TasksPage *)

Record PageState := mkPageState {
  user : option User;
  tasks : list Task;
  showForm : bool;
  editingTask : option Task;
  filter_ : string             (* "all" | "active" | "completed" *)
}.

Definition filteredTasks (tasks : list Task) (filter_ : string) : list Task :=
  JS.filter (fun task =>
               if String.eqb filter_ "active" then negb (completed task)
               else if String.eqb filter_ "completed" then completed task
               else true) tasks.

Definition activeCount (tasks : list Task) : nat :=
  length (JS.filter (fun t => negb (completed t)) tasks).

Definition completedCount (tasks : list Task) : nat :=
  length (JS.filter (fun t => completed t) tasks).

Section TasksPage.
(** [api.createTask] and [api.updateTask] of lib/api; a failure carries
    its [getErrorMessage]. *)
Variable api_createTask : string -> SubmitData -> string + Task.
Variable api_updateTask : string -> Z -> SubmitData -> string + Task.

Definition handleCreateTask (data : SubmitData) (p : PageState)
    : option Thrown * PageState :=
  match user p with
  | None => (None, p)
  | Some u =>
      match api_createTask (u_id u) data with
      | inr newTask =>
          (None, mkPageState (user p) (newTask :: tasks p) false
                   (editingTask p) (filter_ p))
      | inl message => (Some (ThrownError message), p)
      end
  end.

Definition handleUpdateTask (data : SubmitData) (p : PageState)
    : option Thrown * PageState :=
  match user p, editingTask p with
  | Some u, Some e =>
      match api_updateTask (u_id u) (id e) data with
      | inr updatedTask =>
          (None, mkPageState (user p)
                   (map (fun t => if (id t =? id updatedTask)%Z then updatedTask else t)
                        (tasks p))
                   false None (filter_ p))
      | inl message => (Some (ThrownError message), p)
      end
  | _, _ => (None, p)
  end.

(** [onSubmit={editingTask ? handleUpdateTask : handleCreateTask}] *)
Definition onSubmit (p : PageState) : SubmitData -> PageState -> option Thrown * PageState :=
  match editingTask p with
  | Some _ => handleUpdateTask
  | None => handleCreateTask
  end.

End TasksPage.

(** *** TaskForm: the submit button *)

(** [disabled={loading || !formData.title.trim()}] of the submit button. *)
Definition submit_disabled (st : FormState) : bool :=
  loading st || negb (JS.truthy (JS.trim (fd_title (formData st)))).

(** *** TaskItem: delete with confirmation *)

(** [handleDelete]: the new [showConfirm] and the ids passed to [onDelete].
    When it arms the confirmation it also starts the 3000 ms timer whose
    firing is [TimerFires]. *)
Definition handleDelete (task : Task) (showConfirm : bool) : bool * list Z :=
  if showConfirm then (false, [id task]) else (true, []).

Inductive ItemEvent :=
| ClickDelete
| TimerFires.      (* [() => setShowConfirm(false)] *)

Definition item_step (task : Task) (showConfirm : bool) (e : ItemEvent)
    : bool * list Z :=
  match e with
  | ClickDelete => handleDelete task showConfirm
  | TimerFires => (false, [])
  end.

(** The [showConfirm] state after a run of events, and every id passed to
    [onDelete] on the way. *)
Fixpoint item_run (task : Task) (showConfirm : bool) (events : list ItemEvent)
    : bool * list Z :=
  match events with
  | [] => (showConfirm, [])
  | e :: events' =>
      let '(showConfirm', calls) := item_step task showConfirm e in
      let '(final, calls') := item_run task showConfirm' events' in
      (final, calls ++ calls')
  end.

(** How many of the events are clicks on the delete button. *)
Fixpoint clicks (events : list ItemEvent) : nat :=
  match events with
  | [] => 0
  | ClickDelete :: events' => S (clicks events')
  | TimerFires :: events' => clicks events'
  end.

(** *** TasksPage: the remaining handlers *)

Section TasksPageHandlers.
(** [api.toggleTaskCompletion] and [api.deleteTask] of lib/api; a failure
    carries its [getErrorMessage]. *)
Variable api_toggleTaskCompletion : string -> Z -> string + Task.
Variable api_deleteTask : string -> Z -> option string.

(** [handleToggleComplete]: the new page state and the message given to
    [setError], if it is called. *)
Definition handleToggleComplete (taskId : Z) (p : PageState)
    : PageState * option string :=
  match user p with
  | None => (p, None)
  | Some u =>
      match api_toggleTaskCompletion (u_id u) taskId with
      | inr updatedTask =>
          (mkPageState (user p)
             (map (fun t => if (id t =? id updatedTask)%Z then updatedTask else t)
                  (tasks p))
             (showForm p) (editingTask p) (filter_ p), None)
      | inl message => (p, Some message)
      end
  end.

(** [handleDeleteTask] *)
Definition handleDeleteTask (taskId : Z) (p : PageState)
    : PageState * option string :=
  match user p with
  | None => (p, None)
  | Some u =>
      match api_deleteTask (u_id u) taskId with
      | None =>
          (mkPageState (user p)
             (JS.filter (fun t => negb (id t =? taskId)%Z) (tasks p))
             (showForm p) (editingTask p) (filter_ p), None)
      | Some message => (p, Some message)
      end
  end.
End TasksPageHandlers.

(** [handleEditTask] *)
Definition handleEditTask (task : Task) (p : PageState) : PageState :=
  mkPageState (user p) (tasks p) true (Some task) (filter_ p).

(** [handleCancelForm] *)
Definition handleCancelForm (p : PageState) : PageState :=
  mkPageState (user p) (tasks p) false None (filter_ p).

End Frontend.

(* ===================================================================== *)
(** ** Properties of the back end *)
(* ===================================================================== *)

Section BackendProperties.
Import Backend.

#[local] Instance newest_first_total : Total newest_first.
Proof. intros a b. unfold newest_first. lia. Qed.

#[local] Instance newest_first_trans : Transitive newest_first.
Proof. intros a b c. unfold newest_first. lia. Qed.

(** Unfolds a handler down to the session primitives. *)
Ltac run :=
  unfold create_task, get_tasks, get_user_tasks, update_task, delete_task,
    get_task, toggle_completion, Task_init, exec_all_desc, exec_first,
    add_commit_refresh, delete_commit, utcnow, bind, ret, raise, log;
  simpl.

(** The select of one task: what it finds when the row is the caller's. *)
Lemma exec_first_owned task_id uid w t :
  tasks w !! task_id = Some t -> user_id t = uid ->
  exec_first task_id uid w = (Return (Some t), log OpExec w).
Proof.
  intros Hrow Hown. unfold exec_first. rewrite Hrow.
  rewrite bool_decide_eq_true_2; done.
Qed.

(** The select of one task finds nothing when the row is absent or is
    someone else's. *)
Lemma exec_first_hidden task_id uid w :
  match tasks w !! task_id with
  | Some t => user_id t <> uid
  | None => True
  end ->
  exec_first task_id uid w = (Return None, log OpExec w).
Proof.
  intros Hhid. unfold exec_first.
  destruct (tasks w !! task_id) as [t|]; [|done].
  rewrite bool_decide_eq_false_2; done.
Qed.

(** C1. A task request whose verified subject [auth_id] and path owner
    [path_id] are equal is served; when they differ the handler raises
    403 Forbidden and leaves the world as it was: no row changes, the
    clock is not read and no session call is made (the trace is the
    same). Shown for the two guarded handlers, [create_task] and
    [get_tasks]. *)
Theorem C1_guard_iff_subject_matches_path
    (path_id auth_id : string) (task_data : TaskCreate) (w : World) :
  (path_id = auth_id <->
     exists t w', create_task path_id task_data auth_id w = (Return t, w'))
  /\ (path_id = auth_id <->
     exists l w', get_tasks path_id auth_id w = (Return l, w'))
  /\ (path_id <> auth_id <->
     create_task path_id task_data auth_id w
     = (Raise (HTTP 403 "Forbidden"), w))
  /\ (path_id <> auth_id <->
     get_tasks path_id auth_id w = (Raise (HTTP 403 "Forbidden"), w)).
Proof.
  unfold create_task, get_tasks.
  destruct (decide (path_id = auth_id)) as [Heq|Hne].
  - rewrite !bool_decide_eq_false_2 by (intros Hn; by apply Hn).
    split; [|split; [|split]]; split.
    + intros _. run. eauto.
    + done.
    + intros _. run. eauto.
    + done.
    + intros Hn. by destruct Hn.
    + run. intros Hn. discriminate Hn.
    + intros Hn. by destruct Hn.
    + run. intros Hn. discriminate Hn.
  - rewrite !bool_decide_eq_true_2 by done.
    split; [|split; [|split]]; split.
    + done.
    + intros (t & w' & Hrun). discriminate Hrun.
    + done.
    + intros (l & w' & Hrun). discriminate Hrun.
    + done.
    + done.
    + done.
    + done.
Qed.

(** At a concrete request: bob's token on alice's path. *)
Lemma C1_guard_witness :
  create_task "alice" (mkTaskCreate "Buy milk" None) "bob" (initial 0 [])
  = (Raise (HTTP 403 "Forbidden"), initial 0 []).
Proof.
  apply (C1_guard_iff_subject_matches_path "alice" "bob"
           (mkTaskCreate "Buy milk" None) (initial 0 [])).
  discriminate.
Defined.

(** C2. On a task that exists but belongs to another owner, get, update,
    toggle and delete give the caller what they give when no task has
    that id: NotFound (404 from the handlers, [None] from [update_task],
    [False] from [delete_task]).  In both runs the only session call is
    the select, and nothing is written. *)
Theorem C2_foreign_task_looks_absent
    (task_id : Z) (owner_id : string) (kwargs : list kwarg)
    (explicit : option bool) (t : Task) (w1 w2 : World) :
  tasks w1 !! task_id = Some t ->
  user_id t <> owner_id ->
  tasks w2 !! task_id = None ->
  (get_task task_id owner_id w1
     = (Raise (HTTP 404 "Task not found"), log OpExec w1)
   /\ get_task task_id owner_id w2
     = (Raise (HTTP 404 "Task not found"), log OpExec w2))
  /\ (update_task task_id owner_id kwargs w1 = (Return None, log OpExec w1)
   /\ update_task task_id owner_id kwargs w2 = (Return None, log OpExec w2))
  /\ (toggle_completion task_id owner_id explicit w1
     = (Raise (HTTP 404 "Task not found"), log OpExec w1)
   /\ toggle_completion task_id owner_id explicit w2
     = (Raise (HTTP 404 "Task not found"), log OpExec w2))
  /\ (delete_task task_id owner_id w1 = (Return false, log OpExec w1)
   /\ delete_task task_id owner_id w2 = (Return false, log OpExec w2)).
Proof.
  intros Hrow Hown Habs.
  assert (H1 : exec_first task_id owner_id w1 = (Return None, log OpExec w1)).
  { apply exec_first_hidden. by rewrite Hrow. }
  assert (H2 : exec_first task_id owner_id w2 = (Return None, log OpExec w2)).
  { apply exec_first_hidden. by rewrite Habs. }
  unfold get_task, update_task, toggle_completion, delete_task, bind.
  rewrite H1, H2. done.
Qed.

(** At a concrete pair of worlds: alice's task 1, asked for by bob, and
    an empty table. *)
Lemma C2_foreign_task_witness :
  let w1 := serve (ReqCreate "alice" (mkTaskCreate "Buy milk" None)) (initial 0 []) in
  let w2 := initial 0 [] in
  delete_task 1 "bob" w1 = (Return false, log OpExec w1)
  /\ delete_task 1 "bob" w2 = (Return false, log OpExec w2).
Proof.
  intros w1 w2.
  apply (C2_foreign_task_looks_absent 1 "bob" [] None
           (mkTask (Some 1) "alice" "Buy milk" None false 0 0) w1 w2).
  - reflexivity.
  - discriminate.
  - reflexivity.
Defined.

(** *** What each handler does when it succeeds *)

Lemma setattr_fold_fixed kwargs t :
  id (fold_left setattr kwargs t) = id t
  /\ user_id (fold_left setattr kwargs t) = user_id t
  /\ created_at (fold_left setattr kwargs t) = created_at t
  /\ updated_at (fold_left setattr kwargs t) = updated_at t.
Proof.
  revert t. induction kwargs as [|kw kwargs IH]; intros t; simpl; [done|].
  destruct (IH (setattr t kw)) as (Hi & Hu & Hc & Hup).
  rewrite Hi, Hu, Hc, Hup. by destruct kw.
Qed.

Lemma create_task_run uid task_data w :
  let c := next_reading w in
  let u := c + Z.of_N (hd 0%N (tl (drift w))) in
  let row := mkTask (Some (tasks_id_seq w)) uid (tc_title task_data)
               (tc_description task_data) false c u in
  create_task uid task_data uid w
  = (Return row,
     mkWorld (<[tasks_id_seq w := row]> (tasks w)) (tasks_id_seq w + 1) u
       (tl (tl (drift w))) (trace w ++ [OpAdd] ++ [OpCommit] ++ [OpRefresh])).
Proof.
  unfold create_task. rewrite bool_decide_eq_false_2 by (intros Hn; by apply Hn).
  run. unfold next_reading. by rewrite <- !app_assoc.
Qed.

Lemma update_task_run task_id uid kwargs w t :
  tasks w !! task_id = Some t -> user_id t = uid -> id t = Some task_id ->
  let row := updated_row t kwargs (next_reading w) in
  update_task task_id uid kwargs w
  = (Return (Some row),
     mkWorld (<[task_id := row]> (tasks w)) (tasks_id_seq w) (next_reading w)
       (tl (drift w)) (trace w ++ [OpExec] ++ [OpAdd] ++ [OpCommit] ++ [OpRefresh])).
Proof.
  intros Hrow Hown Hid row. unfold update_task, bind.
  rewrite (exec_first_owned _ _ _ _ Hrow Hown).
  run. destruct (setattr_fold_fixed kwargs t) as (Hi & _).
  rewrite Hi, Hid. unfold next_reading. by rewrite <- !app_assoc.
Qed.

Lemma toggle_completion_run task_id uid explicit w t :
  tasks w !! task_id = Some t -> user_id t = uid -> id t = Some task_id ->
  let value := match explicit with Some b => b | None => negb (completed t) end in
  let row := updated_row t [kw_completed value] (next_reading w) in
  toggle_completion task_id uid explicit w
  = (Return row,
     mkWorld (<[task_id := row]> (tasks w)) (tasks_id_seq w) (next_reading w)
       (tl (drift w)) (trace w ++ [OpExec] ++ [OpAdd] ++ [OpCommit] ++ [OpRefresh])).
Proof.
  intros Hrow Hown Hid value row. unfold toggle_completion, bind.
  rewrite (exec_first_owned _ _ _ _ Hrow Hown).
  run. subst row value. unfold updated_row, set_updated_at, next_reading.
  simpl. rewrite Hid. by rewrite <- !app_assoc.
Qed.

Lemma delete_task_run task_id uid w t :
  tasks w !! task_id = Some t -> user_id t = uid -> id t = Some task_id ->
  delete_task task_id uid w
  = (Return true,
     mkWorld (delete task_id (tasks w)) (tasks_id_seq w) (clock w) (drift w)
       (trace w ++ [OpExec] ++ [OpDelete] ++ [OpCommit])).
Proof.
  intros Hrow Hown Hid. unfold delete_task, bind.
  rewrite (exec_first_owned _ _ _ _ Hrow Hown).
  run. rewrite Hid. by rewrite <- !app_assoc.
Qed.

(** A request for a task that is absent or someone else's leaves the
    table, the sequence and the clock alone. *)
Lemma hidden_run task_id uid w :
  match tasks w !! task_id with
  | Some t => user_id t <> uid
  | None => True
  end ->
  forall kwargs explicit,
    snd (update_task task_id uid kwargs w) = log OpExec w
    /\ snd (toggle_completion task_id uid explicit w) = log OpExec w
    /\ snd (delete_task task_id uid w) = log OpExec w.
Proof.
  intros Hhid kwargs explicit.
  unfold update_task, toggle_completion, delete_task, bind.
  rewrite (exec_first_hidden _ _ _ Hhid). done.
Qed.

(** *** The invariant of reachable worlds *)

Lemma owned_or_hidden task_id uid w :
  (exists t, tasks w !! task_id = Some t /\ user_id t = uid)
  \/ match tasks w !! task_id with
     | Some t => user_id t <> uid
     | None => True
     end.
Proof.
  destruct (tasks w !! task_id) as [t|]; [|by right].
  destruct (decide (user_id t = uid)); [left; eauto | by right].
Qed.

Lemma row_ok_later w w' k t :
  tasks_id_seq w <= tasks_id_seq w' -> clock w <= clock w' ->
  row_ok w k t -> row_ok w' k t.
Proof. unfold row_ok. intros Hs Hc (Hi & Hk & Hcu & Hu). repeat split; [done|lia..]. Qed.

Lemma next_reading_ge w : clock w <= next_reading w.
Proof. unfold next_reading. lia. Qed.

Lemma updated_row_ok w k t kwargs :
  row_ok w k t ->
  id (updated_row t kwargs (next_reading w)) = Some k
  /\ created_at (updated_row t kwargs (next_reading w)) = created_at t
  /\ updated_at (updated_row t kwargs (next_reading w)) = next_reading w
  /\ updated_at t <= next_reading w.
Proof.
  intros (Hi & Hk & Hcu & Hu).
  destruct (setattr_fold_fixed kwargs t) as (Hfi & _ & Hfc & _).
  unfold updated_row, set_updated_at. simpl. rewrite Hfi, Hfc.
  pose proof (next_reading_ge w). repeat split; [done|lia].
Qed.

#[local] Arguments updated_row : simpl never.
#[local] Arguments next_reading : simpl never.

Lemma serve_keeps_rows_ok r w :
  (forall k t, tasks w !! k = Some t -> row_ok w k t) ->
  forall k t, tasks (serve r w) !! k = Some t -> row_ok (serve r w) k t.
Proof.
  intros IH k t. pose proof (next_reading_ge w) as Hnow.
  destruct r as [uid task_data|task_id uid kwargs|task_id uid explicit|task_id uid];
    simpl.
  - rewrite create_task_run. simpl. rewrite lookup_insert.
    case_decide as Hk.
    + intros [= <-]. subst k. unfold row_ok. simpl.
      unfold next_reading in *. repeat split; lia.
    + intros Hrow. apply (row_ok_later w); [simpl; lia | simpl; lia | by apply IH].
  - destruct (owned_or_hidden task_id uid w) as [(t0 & Hrow0 & Hown)|Hhid].
    + pose proof (IH _ _ Hrow0) as Hok0. pose proof Hok0 as (Hid0 & Hk0 & _).
      rewrite (update_task_run _ _ kwargs _ _ Hrow0 Hown Hid0). simpl.
      rewrite lookup_insert. case_decide as Hk.
      * intros [= <-]. subst k.
        destruct (updated_row_ok w task_id t0 kwargs Hok0) as (Ha & Hb & Hc & Hd).
        destruct Hok0 as (_ & _ & Hcu & _).
        unfold row_ok. cbn [tasks_id_seq clock]. rewrite Ha, Hb, Hc. repeat split; [done|lia..].
      * intros Hrow. apply (row_ok_later w); [simpl; lia | simpl; lia | by apply IH].
    + destruct (hidden_run _ _ _ Hhid kwargs None) as (-> & _).
      simpl. intros Hrow. by apply IH.
  - destruct (owned_or_hidden task_id uid w) as [(t0 & Hrow0 & Hown)|Hhid].
    + pose proof (IH _ _ Hrow0) as Hok0. pose proof Hok0 as (Hid0 & Hk0 & _).
      rewrite (toggle_completion_run _ _ explicit _ _ Hrow0 Hown Hid0). simpl.
      rewrite lookup_insert. case_decide as Hk.
      * intros [= <-]. subst k.
        destruct (updated_row_ok w task_id t0
                    [kw_completed match explicit with
                                  | Some b => b
                                  | None => negb (completed t0)
                                  end] Hok0) as (Ha & Hb & Hc & Hd).
        destruct Hok0 as (_ & _ & Hcu & _).
        unfold row_ok. cbn [tasks_id_seq clock]. rewrite Ha, Hb, Hc. repeat split; [done|lia..].
      * intros Hrow. apply (row_ok_later w); [simpl; lia | simpl; lia | by apply IH].
    + destruct (hidden_run _ _ _ Hhid [] explicit) as (_ & -> & _).
      simpl. intros Hrow. by apply IH.
  - destruct (owned_or_hidden task_id uid w) as [(t0 & Hrow0 & Hown)|Hhid].
    + pose proof (IH _ _ Hrow0) as (Hid0 & _).
      rewrite (delete_task_run _ _ _ _ Hrow0 Hown Hid0). simpl.
      rewrite lookup_delete. case_decide as Hk; [done|].
      intros Hrow. by apply IH.
    + destruct (hidden_run _ _ _ Hhid [] None) as (_ & _ & ->).
      simpl. intros Hrow. by apply IH.
Qed.

Lemma reachable_rows_ok w :
  reachable w -> forall k t, tasks w !! k = Some t -> row_ok w k t.
Proof.
  induction 1 as [t0 elapsed|r w Hreach IH].
  - intros k t. simpl. by rewrite lookup_empty.
  - by apply serve_keeps_rows_ok.
Qed.

(** *** Listing *)

(** C3. [get_user_tasks] returns, without raising, exactly the stored
    tasks whose [user_id] is the owner asked for, newest [created_at]
    first; when the owner has no task the result is the empty list. *)
Theorem C3_list_owner_newest_first (owner_id : string) (w : World) :
  exists l,
    get_user_tasks owner_id w = (Return l, log OpExec w)
    /\ Forall (fun t => user_id t = owner_id) l
    /\ (forall t, t ∈ l <-> user_id t = owner_id /\ exists k, tasks w !! k = Some t)
    /\ StronglySorted newest_first l
    /\ ((forall k t, tasks w !! k = Some t -> user_id t <> owner_id) -> l = []).
Proof.
  eexists. split; [reflexivity|].
  assert (Hmem : forall t,
    t ∈ merge_sort newest_first
          (filter (fun t => user_id t = owner_id) (map_to_list (tasks w)).*2)
    <-> user_id t = owner_id /\ exists k, tasks w !! k = Some t).
  { intros t. rewrite merge_sort_Permutation, list_elem_of_filter, list_elem_of_fmap.
    split.
    - intros (Hown & [k t'] & -> & Hin). split; [done|].
      exists k. by apply elem_of_map_to_list.
    - intros (Hown & k & Hrow). split; [done|].
      exists (k, t). split; [done|]. by apply elem_of_map_to_list. }
  split; [|split; [|split]].
  - apply Forall_forall. intros t Hin. by apply Hmem in Hin as (Hown & _).
  - exact Hmem.
  - apply StronglySorted_merge_sort; apply _.
  - intros Hnone.
    destruct (merge_sort newest_first
                (filter (fun t => user_id t = owner_id) (map_to_list (tasks w)).*2))
      as [|t l] eqn:Hl; [done|].
    assert (Hin : t ∈ t :: l) by apply list_elem_of_here.
    apply Hmem in Hin as (Hown & k & Hrow). by destruct (Hnone k t Hrow).
Qed.

(** At a concrete world: alice has tasks, bob has none and gets the empty
    list. *)
Lemma C3_list_witness :
  let w := mkWorld (<[1 := mkTask (Some 1) "alice" "Buy milk" None false 5 5]> ∅)
             2 5 [] [] in
  get_user_tasks "bob" w = (Return [], log OpExec w).
Proof.
  intros w.
  destruct (C3_list_owner_newest_first "bob" w) as (l & Hrun & _ & _ & _ & Hempty).
  rewrite Hrun, Hempty; [reflexivity|].
  intros k t. unfold w. simpl. rewrite lookup_insert.
  case_decide; [intros [= <-]; discriminate | by rewrite lookup_empty].
Defined.

(** Two owners, three rows: the listing for alice, newest first. *)
Example get_user_tasks_example :
  let a1 := mkTask (Some 1) "alice" "Buy milk" None false 10 10 in
  let b2 := mkTask (Some 2) "bob" "Same title" None false 20 20 in
  let a3 := mkTask (Some 3) "alice" "Same title" None true 30 40 in
  fst (get_user_tasks "alice"
         (mkWorld (<[1 := a1]> (<[2 := b2]> (<[3 := a3]> ∅))) 4 40 [] []))
  = Return [a3; a1].
Proof. vm_compute. reflexivity. Qed.

(** *** Creation *)

(** What holds of [create_task] on every request that passes the guard:
    the task gets the next value of the sequence as its id, is not
    completed, is stamped with two successive readings of the clock, and
    a get that follows returns it. *)
Lemma create_task_then_get uid task_data w :
  exists t w',
    create_task uid task_data uid w = (Return t, w')
    /\ id t = Some (tasks_id_seq w)
    /\ user_id t = uid
    /\ title t = tc_title task_data
    /\ description t = tc_description task_data
    /\ completed t = false
    /\ created_at t = next_reading w
    /\ created_at t <= updated_at t
    /\ fst (get_task (tasks_id_seq w) uid w') = Return t.
Proof.
  rewrite create_task_run. eexists _, _. split; [reflexivity|].
  simpl. repeat split; try done; try lia.
  unfold get_task, bind.
  erewrite exec_first_owned; [reflexivity| |reflexivity].
  simpl. by rewrite lookup_insert_eq.
Qed.

(** C4 (the code at a failing input). A create served while the clock
    moves between the two [default_factory] calls returns a task whose
    [updated_at] is later than its [created_at]; the other parts of the
    claim hold there: the id is new, [completed] is false and the get
    that follows returns the same task. *)
Theorem C4_create_reads_clock_twice :
  let w0 := initial 1000 [0; 1]%N in
  let created := mkTask (Some 1) "alice" "Buy milk" None false 1000 1001 in
  exists w',
    create_task "alice" (mkTaskCreate "Buy milk" None) "alice" w0
    = (Return created, w')
    /\ tasks w0 !! 1 = None
    /\ completed created = false
    /\ created_at created <> updated_at created
    /\ fst (get_task 1 "alice" w') = Return created.
Proof.
  intros w0 created. eexists. split; [vm_compute; reflexivity|].
  split; [reflexivity|]. split; [reflexivity|].
  split; [discriminate|]. vm_compute. reflexivity.
Qed.

(** *** Completion toggle *)





(** *** Timestamps *)

Lemma serve_row_change r w k t t' :
  (forall k t, tasks w !! k = Some t -> row_ok w k t) ->
  tasks w !! k = Some t ->
  tasks (serve r w) !! k = Some t' ->
  created_at t' = created_at t
  /\ (t' = t
      \/ (updated_at t' = clock (serve r w) /\ updated_at t <= updated_at t')).
Proof.
  intros IH Hrow. pose proof (IH _ _ Hrow) as Hok.
  destruct r as [uid task_data|task_id uid kwargs|task_id uid explicit|task_id uid];
    simpl.
  - rewrite create_task_run. simpl. rewrite lookup_insert.
    case_decide as Hk.
    + destruct Hok as (_ & Hlt & _). lia.
    + rewrite Hrow. intros [= <-]. auto.
  - destruct (owned_or_hidden task_id uid w) as [(t0 & Hrow0 & Hown)|Hhid].
    + pose proof (IH _ _ Hrow0) as Hok0. pose proof Hok0 as (Hid0 & _).
      rewrite (update_task_run _ _ kwargs _ _ Hrow0 Hown Hid0). simpl.
      rewrite lookup_insert. case_decide as Hk.
      * subst k. rewrite Hrow in Hrow0. injection Hrow0 as <-.
        intros [= <-].
        destruct (updated_row_ok w task_id t kwargs Hok0) as (_ & Hb & Hc & Hd).
        rewrite Hb, Hc. split; [done|]. right. done.
      * rewrite Hrow. intros [= <-]. auto.
    + destruct (hidden_run _ _ _ Hhid kwargs None) as (-> & _).
      simpl. rewrite Hrow. intros [= <-]. auto.
  - destruct (owned_or_hidden task_id uid w) as [(t0 & Hrow0 & Hown)|Hhid].
    + pose proof (IH _ _ Hrow0) as Hok0. pose proof Hok0 as (Hid0 & _).
      rewrite (toggle_completion_run _ _ explicit _ _ Hrow0 Hown Hid0). simpl.
      rewrite lookup_insert. case_decide as Hk.
      * subst k. rewrite Hrow in Hrow0. injection Hrow0 as <-.
        intros [= <-].
        destruct (updated_row_ok w task_id t
                    [kw_completed match explicit with
                                  | Some b => b
                                  | None => negb (completed t)
                                  end] Hok0) as (_ & Hb & Hc & Hd).
        rewrite Hb, Hc. split; [done|]. right. done.
      * rewrite Hrow. intros [= <-]. auto.
    + destruct (hidden_run _ _ _ Hhid [] explicit) as (_ & -> & _).
      simpl. rewrite Hrow. intros [= <-]. auto.
  - destruct (owned_or_hidden task_id uid w) as [(t0 & Hrow0 & Hown)|Hhid].
    + pose proof (IH _ _ Hrow0) as (Hid0 & _).
      rewrite (delete_task_run _ _ _ _ Hrow0 Hown Hid0). simpl.
      rewrite lookup_delete. case_decide as Hk; [done|].
      rewrite Hrow. intros [= <-]. auto.
    + destruct (hidden_run _ _ _ Hhid [] None) as (_ & _ & ->).
      simpl. rewrite Hrow. intros [= <-]. auto.
Qed.

(** C8. In every world reachable by serving requests, each stored task has
    [created_at <= updated_at]; serving one more request never changes
    the [created_at] of a task that stays stored, and a task it changes
    at all gets the clock reading of that request as [updated_at]; a
    successful [update_task], whatever subset of title, description and
    completed it is given, stores that reading. *)
Theorem C8_timestamps_ordered_and_stamped (w : World) :
  reachable w ->
  (forall k t, tasks w !! k = Some t -> created_at t <= updated_at t)
  /\ (forall r k t t',
        tasks w !! k = Some t -> tasks (serve r w) !! k = Some t' ->
        created_at t' = created_at t
        /\ (t' = t
            \/ (updated_at t' = clock (serve r w)
                /\ updated_at t <= updated_at t')))
  /\ (forall task_id kwargs t,
        tasks w !! task_id = Some t ->
        exists t' w',
          update_task task_id (user_id t) kwargs w = (Return (Some t'), w')
          /\ tasks w' !! task_id = Some t'
          /\ t' = updated_row t kwargs (clock w')
          /\ created_at t' = created_at t
          /\ updated_at t' = clock w'
          /\ updated_at t <= updated_at t').
Proof.
  intros Hreach. pose proof (reachable_rows_ok w Hreach) as Hrows.
  split; [|split].
  - intros k t Hrow. by destruct (Hrows k t Hrow) as (_ & _ & Hcu & _).
  - intros r k t t'. by apply serve_row_change.
  - intros task_id kwargs t Hrow.
    pose proof (Hrows _ _ Hrow) as Hok. pose proof Hok as (Hid & _).
    rewrite (update_task_run _ _ kwargs _ _ Hrow eq_refl Hid).
    eexists _, _. split; [reflexivity|]. cbn [tasks clock].
    rewrite lookup_insert_eq.
    destruct (updated_row_ok w task_id t kwargs Hok) as (_ & Hb & Hc & Hd).
    rewrite Hb, Hc. done.
Qed.

(** At a concrete reachable world: alice creates a task and renames it. *)
Lemma C8_timestamps_witness :
  let w := serve (ReqUpdate 1 "alice" [kw_title "Buy oat milk"])
             (serve (ReqCreate "alice" (mkTaskCreate "Buy milk" None))
                (initial 1000 [1; 1; 5]%N)) in
  let t := mkTask (Some 1) "alice" "Buy oat milk" None false 1001 1007 in
  tasks w !! 1 = Some t /\ created_at t <= updated_at t.
Proof.
  intros w t. split; [reflexivity|].
  assert (Hreach : reachable w)
    by apply reachable_serve, reachable_serve, reachable_initial.
  apply (proj1 (C8_timestamps_ordered_and_stamped w Hreach) 1 t).
  reflexivity.
Defined.

Example timestamps_example :
  tasks (serve (ReqUpdate 1 "alice" [kw_title "Buy oat milk"])
           (serve (ReqCreate "alice" (mkTaskCreate "Buy milk" None))
              (initial 1000 [1; 1; 5]%N))) !! 1
  = Some (mkTask (Some 1) "alice" "Buy oat milk" None false 1001 1007).
Proof. vm_compute. reflexivity. Qed.

End BackendProperties.

(* ===================================================================== *)
(** ** Properties of the front end *)
(* ===================================================================== *)

Section FrontendProperties.
Import Frontend.

Lemma JS_filter_cons {A} (pred : A -> bool) x l :
  JS.filter pred (x :: l)
  = if pred x then x :: JS.filter pred l else JS.filter pred l.
Proof.
  unfold JS.filter. rewrite filter_cons.
  destruct (pred x); reflexivity.
Qed.

Lemma JS_filter_elem_of {A} (pred : A -> bool) x l :
  x ∈ JS.filter pred l <-> x ∈ l /\ pred x = true.
Proof.
  unfold JS.filter. rewrite list_elem_of_filter, Is_true_true. tauto.
Qed.

Lemma JS_filter_all {A} (l : list A) : JS.filter (fun _ => true) l = l.
Proof.
  induction l as [|x l IH]; [done|]. rewrite JS_filter_cons. by rewrite IH.
Qed.

Lemma JS_filter_split {A} (pred : A -> bool) l :
  JS.filter (fun x => negb (pred x)) l ++ JS.filter pred l ≡ₚ l
  /\ (length (JS.filter (fun x => negb (pred x)) l)
      + length (JS.filter pred l) = length l)%nat.
Proof.
  induction l as [|x l [IHp IHl]]; [done|].
  rewrite !JS_filter_cons. destruct (pred x); simpl.
  - split; [by rewrite <- Permutation_middle, IHp | lia].
  - split; [by rewrite IHp | lia].
Qed.

(** *** The form *)

(** [handleSubmit] calls [onSubmit] at most once, with the trimmed fields,
    and does so exactly when the trimmed title is not empty; nothing in
    it looks at lengths. *)
Lemma handleSubmit_calls {S} (onSubmit : SubmitData -> S -> option Thrown * S)
    (st : FormState) (s : S) :
  snd (handleSubmit onSubmit st s)
  = if JS.truthy (JS.trim (fd_title (formData st))) then
      [mkSubmitData (JS.trim (fd_title (formData st)))
         (JS.or_undefined (JS.trim (fd_description (formData st))))]
    else [].
Proof.
  unfold handleSubmit.
  destruct (JS.truthy (JS.trim (fd_title (formData st)))); simpl; [|done].
  by destruct (onSubmit _ s) as [[[message|]|] s'].
Qed.


Lemma truthy_empty s : JS.truthy s = false <-> s = "".
Proof. by destruct s. Qed.

(** C5 (the code at failing inputs). A title of 201 characters and a
    description of 1001 characters pass [handleSubmit] and are handed to
    [onSubmit] as they are; [create_task] stores a whitespace-only title
    and a description of 1001 characters as given; no ValidationError is
    raised.  The parts of the claim that the form does enforce are shown
    next to them: a title of 200 characters is submitted, a
    whitespace-only title is rejected with an error. *)
Theorem C5_overlong_title_and_description_accepted :
  let title201 := JS.repeat "a" 201 in
  let description1001 := JS.repeat "x" 1001 in
  let accept := fun (_ : SubmitData) (s : unit) => (@None Thrown, s) in
  (String.length title201 = 201%nat /\ String.length description1001 = 1001%nat)
  /\ snd (handleSubmit accept
            (mkFormState (mkFormData title201 description1001) false "") tt)
     = [mkSubmitData title201 (Some description1001)]
  /\ (exists w',
       Backend.create_task "alice"
         (Backend.mkTaskCreate "   " (Some description1001)) "alice"
         (Backend.initial 0 [])
       = (Backend.Return
            (Backend.mkTask (Some 1) "alice" "   " (Some description1001)
               false 0 0), w'))
  /\ snd (handleSubmit accept
            (mkFormState (mkFormData (JS.repeat "a" 200) "") false "") tt)
     = [mkSubmitData (JS.repeat "a" 200) None]
  /\ handleSubmit accept (mkFormState (mkFormData "   " "") false "") tt
     = (mkFormState (mkFormData "   " "") false "Title is required", tt, []).
Proof.
  intros title201 description1001 accept.
  split; [split; vm_compute; reflexivity|].
  split; [vm_compute; reflexivity|].
  split; [eexists; vm_compute; reflexivity|].
  split; vm_compute; reflexivity.
Qed.



(** *** Description: absent or shown *)

(** C9. The form never hands over an empty description: what it passes to
    [onSubmit] carries the trimmed description when that is not empty and
    no description at all when it is (empty or whitespace only).  A task
    without a description renders no description paragraph; a task with
    a non-empty one renders exactly one, holding its text. *)
Theorem C9_blank_description_absent {S : Type}
    (onSubmit : SubmitData -> S -> option Thrown * S) (st : FormState) (s : S)
    (formatDateTime : string -> string) (task : Task) (showConfirm : bool) :
  Forall (fun data =>
            sd_description data <> Some ""
            /\ sd_description data
               = (if decide (JS.trim (fd_description (formData st)) = "")
                  then None
                  else Some (JS.trim (fd_description (formData st)))))
         (snd (handleSubmit onSubmit st s))
  /\ (JS.trim (fd_title (formData st)) <> "" ->
      exists data, snd (handleSubmit onSubmit st s) = [data])
  /\ (description task = None ->
      paragraphs (TaskItem formatDateTime task showConfirm) = [])
  /\ (forall d, description task = Some d -> d <> "" ->
      paragraphs (TaskItem formatDateTime task showConfirm)
      = [Elem "p" (if completed task then "mt-1 text-sm text-gray-400"
                   else "mt-1 text-sm text-gray-600") [Text d]]).
Proof.
  rewrite handleSubmit_calls.
  split; [|split; [|split]].
  - destruct (JS.truthy (JS.trim (fd_title (formData st)))); [|constructor].
    constructor; [|constructor]. simpl. unfold JS.or_undefined.
    destruct (JS.trim (fd_description (formData st))) as [|c d]; simpl.
    + done.
    + split; [discriminate|reflexivity].
  - intros Htitle.
    destruct (JS.truthy (JS.trim (fd_title (formData st)))) eqn:Ht; [eauto|].
    by apply truthy_empty in Ht.
  - intros Hnone. unfold TaskItem. rewrite Hnone.
    destruct (String.eqb (updated_at task) (created_at task)); reflexivity.
  - intros d Hsome Hd. unfold TaskItem. rewrite Hsome.
    destruct d as [|c d]; [done|].
    destruct (String.eqb (updated_at task) (created_at task)); reflexivity.
Qed.

(** At a concrete form: a whitespace-only description is left out. *)
Lemma C9_blank_description_witness :
  snd (handleSubmit (fun (_ : SubmitData) (s : unit) => (@None Thrown, s))
         (mkFormState (mkFormData "Buy milk" "  ") false "") tt)
  = [mkSubmitData "Buy milk" None].
Proof.
  destruct (C9_blank_description_absent
              (fun (_ : SubmitData) (s : unit) => (@None Thrown, s))
              (mkFormState (mkFormData "Buy milk" "  ") false "") tt
              (fun x => x) (mkTask 1 "alice" "Buy milk" None false "t0" "t0") false)
    as (_ & Hcall & _).
  destruct Hcall as [data Hdata]; [discriminate|].
  reflexivity.
Defined.

Example TaskItem_description_example :
  let fmt := fun x : string => x in
  paragraphs (TaskItem fmt (mkTask 1 "alice" "Buy milk" None false "t0" "t0") false) = []
  /\ paragraphs (TaskItem fmt (mkTask 1 "alice" "Buy milk" (Some "") false "t0" "t0") false) = []
  /\ paragraphs (TaskItem fmt (mkTask 1 "alice" "Buy milk" (Some "2 l") false "t0" "t0") false)
     = [Elem "p" "mt-1 text-sm text-gray-600" [Text "2 l"]].
Proof. repeat split. Qed.

(** *** Filters and counts *)

(** C10. On the page's task list, the filter "active" keeps exactly the
    tasks that are not completed, "completed" exactly those that are,
    and "all" keeps the list as it is; the active and completed counts
    add up to the length of the list; the two filtered lists are
    subsequences of the list (order kept) that together hold each of its
    elements once; they are the two sections [TaskList] shows. *)
Theorem C10_filters_partition_tasks (tasks : list Task) :
  (forall t, t ∈ filteredTasks tasks "active" <-> t ∈ tasks /\ completed t = false)
  /\ (forall t, t ∈ filteredTasks tasks "completed" <-> t ∈ tasks /\ completed t = true)
  /\ filteredTasks tasks "all" = tasks
  /\ (activeCount tasks + completedCount tasks = length tasks)%nat
  /\ (activeCount tasks = length (filteredTasks tasks "active")
      /\ completedCount tasks = length (filteredTasks tasks "completed"))
  /\ filteredTasks tasks "active" `sublist_of` tasks
  /\ filteredTasks tasks "completed" `sublist_of` tasks
  /\ filteredTasks tasks "active" ++ filteredTasks tasks "completed" ≡ₚ tasks
  /\ (incompleteTasks tasks = filteredTasks tasks "active"
      /\ completedTasks tasks = filteredTasks tasks "completed").
Proof.
  unfold filteredTasks, activeCount, completedCount, incompleteTasks,
    completedTasks. cbn.
  destruct (JS_filter_split completed tasks) as [Hperm Hlen].
  split; [|split; [|split; [|split; [|split; [|split; [|split; [|split]]]]]]].
  - intros t. rewrite JS_filter_elem_of.
    split; intros [Hin Hc]; (split; [done|]); by destruct (completed t).
  - intros t. by rewrite JS_filter_elem_of.
  - apply JS_filter_all.
  - exact Hlen.
  - done.
  - apply sublist_filter.
  - apply sublist_filter.
  - exact Hperm.
  - done.
Qed.

Example filteredTasks_example :
  let a := mkTask 1 "alice" "a" None false "t1" "t1" in
  let b := mkTask 2 "alice" "b" None true "t2" "t3" in
  let c := mkTask 3 "alice" "c" None false "t4" "t4" in
  filteredTasks [a; b; c] "active" = [a; c]
  /\ filteredTasks [a; b; c] "completed" = [b]
  /\ filteredTasks [a; b; c] "all" = [a; b; c]
  /\ activeCount [a; b; c] = 2%nat /\ completedCount [a; b; c] = 1%nat.
Proof. repeat split. Qed.

End FrontendProperties.

(* ===================================================================== *)
(** ** Further properties of the back end *)
(* ===================================================================== *)

Section BackendFurther.
Import Backend.

#[local] Arguments updated_row : simpl never.
#[local] Arguments next_reading : simpl never.

(** *** Incomplete tasks *)

Lemma filter_fmap_comm {A B} (f : A -> B) (P : B -> Prop)
    `{!forall y, Decision (P y)} (l : list A) :
  filter P (f <$> l) = f <$> filter (fun x => P (f x)) l.
Proof.
  induction l as [|x l IH]; [done|].
  rewrite fmap_cons, !filter_cons. destruct (decide (P (f x))); by rewrite IH.
Qed.

(** [get_incomplete_tasks] never raises and returns exactly the stored
    tasks of the user that are not completed; they are the not-completed
    tasks of [get_user_tasks], up to order. *)
Theorem get_incomplete_tasks_of_listing (uid : string) (w : World) :
  exists l all,
    get_incomplete_tasks uid w = (Return l, log OpExec w)
    /\ fst (get_user_tasks uid w) = Return all
    /\ (forall t, t ∈ l <->
          (user_id t = uid /\ completed t = false) /\ exists k, tasks w !! k = Some t)
    /\ l ≡ₚ filter (fun t => completed t = false) all.
Proof.
  eexists _, _. split; [reflexivity|]. split; [reflexivity|]. split.
  - intros t. rewrite list_elem_of_filter, list_elem_of_fmap. split.
    + intros (Hp & [k t'] & -> & Hin). split; [done|].
      exists k. by apply elem_of_map_to_list.
    + intros (Hp & k & Hrow). split; [done|].
      exists (k, t). split; [done|]. by apply elem_of_map_to_list.
  - rewrite merge_sort_Permutation, list_filter_filter.
    apply reflexive_eq, list_filter_iff. intros t. tauto.
Qed.

(** *** Creation: fresh ids *)

Lemma serve_all_reachable rs w : reachable w -> reachable (serve_all rs w).
Proof.
  revert w. induction rs as [|r rs IH]; intros w Hreach; [done|].
  simpl. apply IH. by constructor.
Qed.

Lemma serve_sequence_grows r w :
  reachable w -> tasks_id_seq w <= tasks_id_seq (serve r w).
Proof.
  intros Hreach. pose proof (reachable_rows_ok w Hreach) as Hrows.
  destruct r as [uid task_data|task_id uid kwargs|task_id uid explicit|task_id uid];
    simpl.
  - rewrite create_task_run. simpl. lia.
  - destruct (owned_or_hidden task_id uid w) as [(t0 & Hrow0 & Hown)|Hhid].
    + destruct (Hrows _ _ Hrow0) as (Hid0 & _).
      rewrite (update_task_run _ _ kwargs _ _ Hrow0 Hown Hid0). simpl. lia.
    + destruct (hidden_run _ _ _ Hhid kwargs None) as (-> & _). simpl. lia.
  - destruct (owned_or_hidden task_id uid w) as [(t0 & Hrow0 & Hown)|Hhid].
    + destruct (Hrows _ _ Hrow0) as (Hid0 & _).
      rewrite (toggle_completion_run _ _ explicit _ _ Hrow0 Hown Hid0). simpl. lia.
    + destruct (hidden_run _ _ _ Hhid [] explicit) as (_ & -> & _). simpl. lia.
  - destruct (owned_or_hidden task_id uid w) as [(t0 & Hrow0 & Hown)|Hhid].
    + destruct (Hrows _ _ Hrow0) as (Hid0 & _).
      rewrite (delete_task_run _ _ _ _ Hrow0 Hown Hid0). simpl. lia.
    + destruct (hidden_run _ _ _ Hhid [] None) as (_ & _ & ->). simpl. lia.
Qed.

Lemma serve_all_sequence_grows rs w :
  reachable w -> tasks_id_seq w <= tasks_id_seq (serve_all rs w).
Proof.
  revert w. induction rs as [|r rs IH]; intros w Hreach; simpl; [lia|].
  pose proof (serve_sequence_grows r w Hreach).
  pose proof (IH (serve r w) (reachable_serve r w Hreach)).
  unfold serve_all in *. lia.
Qed.

(** In a reachable world [create_task] gives the new task an id that no
    stored task has and that is above every stored id, adds exactly that
    row and leaves every stored row as it was. *)
Theorem create_task_fresh_id (uid : string) (task_data : TaskCreate) (w : World) :
  reachable w ->
  exists t w',
    create_task uid task_data uid w = (Return t, w')
    /\ id t = Some (tasks_id_seq w)
    /\ tasks w !! tasks_id_seq w = None
    /\ tasks w' !! tasks_id_seq w = Some t
    /\ (forall k t0, tasks w !! k = Some t0 ->
          k < tasks_id_seq w /\ tasks w' !! k = Some t0)
    /\ size (tasks w') = S (size (tasks w)).
Proof.
  intros Hreach. pose proof (reachable_rows_ok w Hreach) as Hrows.
  assert (Hfresh : tasks w !! tasks_id_seq w = None).
  { destruct (tasks w !! tasks_id_seq w) as [t0|] eqn:Hrow; [|done].
    destruct (Hrows _ _ Hrow) as (_ & Hlt & _). lia. }
  rewrite create_task_run. eexists _, _. split; [reflexivity|]. simpl.
  split; [done|]. split; [done|]. split; [by rewrite lookup_insert_eq|]. split.
  - intros k t0 Hrow. destruct (Hrows _ _ Hrow) as (_ & Hlt & _).
    split; [done|]. rewrite lookup_insert_ne; [done|lia].
  - by apply map_size_insert_None.
Qed.

Lemma create_task_fresh_id_witness :
  exists t w',
    create_task "alice" (mkTaskCreate "Buy milk" None) "alice" (initial 0 [])
    = (Return t, w')
    /\ id t = Some 1.
Proof.
  destruct (create_task_fresh_id "alice" (mkTaskCreate "Buy milk" None)
              (initial 0 []) (reachable_initial 0 []))
    as (t & w' & Hrun & Hid & _).
  by exists t, w'.
Defined.

(** An id is never given out twice: whatever requests are served after a
    task was stored, deletions of that task included, a later create gets
    a different id. *)
Theorem ids_never_reused (w : World) (k : Z) (t : Task) (rs : list request)
    (uid : string) (task_data : TaskCreate) :
  reachable w ->
  tasks w !! k = Some t ->
  exists t' w',
    create_task uid task_data uid (serve_all rs w) = (Return t', w')
    /\ id t' = Some (tasks_id_seq (serve_all rs w))
    /\ k < tasks_id_seq (serve_all rs w)
    /\ id t' <> Some k.
Proof.
  intros Hreach Hrow.
  destruct (reachable_rows_ok w Hreach _ _ Hrow) as (_ & Hlt & _).
  pose proof (serve_all_sequence_grows rs w Hreach) as Hgrow.
  rewrite create_task_run. eexists _, _. split; [reflexivity|]. simpl.
  split; [done|]. split; [lia|]. intros [= Heq]. lia.
Qed.

Lemma ids_never_reused_witness :
  let w := serve (ReqCreate "alice" (mkTaskCreate "Buy milk" None)) (initial 0 []) in
  exists t' w',
    create_task "alice" (mkTaskCreate "Again" None) "alice"
      (serve_all [ReqDelete 1 "alice"] w) = (Return t', w')
    /\ id t' = Some (tasks_id_seq (serve_all [ReqDelete 1 "alice"] w))
    /\ 1 < tasks_id_seq (serve_all [ReqDelete 1 "alice"] w)
    /\ id t' <> Some 1.
Proof.
  intros w.
  apply (ids_never_reused w 1 (mkTask (Some 1) "alice" "Buy milk" None false 0 0)).
  - apply reachable_serve, reachable_initial.
  - reflexivity.
Defined.

(** *** Update and delete *)

Lemma setattr_fold_given kwargs t :
  title (fold_left setattr kwargs t) = default (title t) (given_title kwargs)
  /\ description (fold_left setattr kwargs t)
     = default (description t) (given_description kwargs)
  /\ completed (fold_left setattr kwargs t)
     = default (completed t) (given_completed kwargs).
Proof.
  unfold given_title, given_description, given_completed.
  induction kwargs as [|kw kwargs IH] using rev_ind; [done|].
  rewrite !fold_left_app. simpl. destruct IH as (Ht & Hd & Hc).
  destruct kw; simpl; auto.
Qed.

(** A successful [update_task] round-trips: the select of the task then
    finds the task that was returned; each of title, description and completed
    holds the last value given for it, or its old value when none was
    given; id, owner and [created_at] stay; no other row changes. *)
Theorem update_task_then_get
    (task_id : Z) (kwargs : list kwarg) (w : World) (t : Task) :
  reachable w ->
  tasks w !! task_id = Some t ->
  exists t' w',
    update_task task_id (user_id t) kwargs w = (Return (Some t'), w')
    /\ fst (exec_first task_id (user_id t) w') = Return (Some t')
    /\ title t' = default (title t) (given_title kwargs)
    /\ description t' = default (description t) (given_description kwargs)
    /\ completed t' = default (completed t) (given_completed kwargs)
    /\ (id t' = id t /\ user_id t' = user_id t /\ created_at t' = created_at t)
    /\ (forall k, k <> task_id -> tasks w' !! k = tasks w !! k).
Proof.
  intros Hreach Hrow.
  destruct (reachable_rows_ok w Hreach _ _ Hrow) as (Hid & _).
  rewrite (update_task_run _ _ kwargs _ _ Hrow eq_refl Hid).
  eexists _, _. split; [reflexivity|].
  destruct (setattr_fold_fixed kwargs t) as (Hfi & Hfu & Hfc & _).
  destruct (setattr_fold_given kwargs t) as (Hgt & Hgd & Hgc).
  assert (Hown : user_id (updated_row t kwargs (next_reading w)) = user_id t)
    by (unfold updated_row, set_updated_at; simpl; done).
  split.
  - erewrite exec_first_owned; [reflexivity| |exact Hown].
    cbn [tasks]. by rewrite lookup_insert_eq.
  - unfold updated_row, set_updated_at. simpl.
    repeat split; try done.
    intros k Hk. by rewrite lookup_insert_ne.
Qed.

Lemma update_task_then_get_witness :
  let w := serve (ReqCreate "alice" (mkTaskCreate "Buy milk" (Some "2 l")))
             (initial 0 [1; 1; 3]%N) in
  exists t' w',
    update_task 1 "alice" [kw_title "X"] w = (Return (Some t'), w')
    /\ fst (exec_first 1 "alice" w') = Return (Some t')
    /\ title t' = "X"
    /\ description t' = Some "2 l"
    /\ completed t' = false.
Proof.
  intros w.
  destruct (update_task_then_get 1 [kw_title "X"] w
              (mkTask (Some 1) "alice" "Buy milk" (Some "2 l") false 1 2))
    as (t' & w' & Hrun & Hget & Ht & Hd & Hc & _).
  - apply reachable_serve, reachable_initial.
  - reflexivity.
  - by exists t', w'.
Defined.

(** A successful [delete_task] removes the row and nothing else: the
    select of it then finds nothing, a second delete returns [False],
    every other row and the id sequence are as before. *)
Theorem delete_task_then_gone (task_id : Z) (w : World) (t : Task) :
  reachable w ->
  tasks w !! task_id = Some t ->
  exists w',
    delete_task task_id (user_id t) w = (Return true, w')
    /\ tasks w' !! task_id = None
    /\ (forall k, k <> task_id -> tasks w' !! k = tasks w !! k)
    /\ tasks_id_seq w' = tasks_id_seq w
    /\ fst (exec_first task_id (user_id t) w') = Return None
    /\ fst (delete_task task_id (user_id t) w') = Return false.
Proof.
  intros Hreach Hrow.
  destruct (reachable_rows_ok w Hreach _ _ Hrow) as (Hid & _).
  rewrite (delete_task_run _ _ _ _ Hrow eq_refl Hid).
  eexists. split; [reflexivity|]. cbn [tasks tasks_id_seq].
  split; [apply lookup_delete_eq|].
  split; [intros k Hk; by rewrite lookup_delete_ne|].
  split; [done|].
  unfold delete_task, bind.
  rewrite exec_first_hidden; [done|].
  cbn [tasks]. by rewrite lookup_delete_eq.
Qed.

Lemma delete_task_then_gone_witness :
  let w := serve (ReqCreate "alice" (mkTaskCreate "Buy milk" None)) (initial 0 []) in
  exists w',
    delete_task 1 "alice" w = (Return true, w')
    /\ tasks w' !! 1 = None
    /\ fst (delete_task 1 "alice" w') = Return false.
Proof.
  intros w.
  destruct (delete_task_then_gone 1 w
              (mkTask (Some 1) "alice" "Buy milk" None false 0 0))
    as (w' & Hrun & Hgone & _ & _ & _ & Hagain).
  - apply reachable_serve, reachable_initial.
  - reflexivity.
  - by exists w'.
Defined.

(** *** What a request can change *)

(** How the row under [k] fares when one request is served in a world
    whose rows are well formed. *)
Lemma serve_row_cases r w k t t' :
  (forall k t, tasks w !! k = Some t -> row_ok w k t) ->
  tasks w !! k = Some t ->
  tasks (serve r w) !! k = Some t' ->
  t' = t
  \/ (exists kwargs,
        r = ReqUpdate k (user_id t) kwargs
        /\ t' = updated_row t kwargs (next_reading w))
  \/ (exists explicit,
        r = ReqToggle k (user_id t) explicit
        /\ t' = updated_row t
                  [kw_completed match explicit with
                                | Some b => b
                                | None => negb (completed t)
                                end] (next_reading w)).
Proof.
  intros IH Hrow. pose proof (IH _ _ Hrow) as Hok.
  destruct r as [uid task_data|task_id uid kwargs|task_id uid explicit|task_id uid];
    simpl.
  - rewrite create_task_run. simpl. rewrite lookup_insert.
    case_decide as Hk.
    + destruct Hok as (_ & Hlt & _). lia.
    + rewrite Hrow. intros [= <-]. auto.
  - destruct (owned_or_hidden task_id uid w) as [(t0 & Hrow0 & Hown)|Hhid].
    + pose proof (IH _ _ Hrow0) as (Hid0 & _).
      rewrite (update_task_run _ _ kwargs _ _ Hrow0 Hown Hid0). cbn [snd tasks].
      rewrite lookup_insert. case_decide as Hk.
      * subst k. rewrite Hrow in Hrow0. injection Hrow0 as <-.
        intros [= <-]. right. left. exists kwargs. by subst uid.
      * rewrite Hrow. intros [= <-]. auto.
    + destruct (hidden_run _ _ _ Hhid kwargs None) as (-> & _).
      simpl. rewrite Hrow. intros [= <-]. auto.
  - destruct (owned_or_hidden task_id uid w) as [(t0 & Hrow0 & Hown)|Hhid].
    + pose proof (IH _ _ Hrow0) as (Hid0 & _).
      rewrite (toggle_completion_run _ _ explicit _ _ Hrow0 Hown Hid0). cbn [snd tasks].
      rewrite lookup_insert. case_decide as Hk.
      * subst k. rewrite Hrow in Hrow0. injection Hrow0 as <-.
        intros [= <-]. right. right. exists explicit. by subst uid.
      * rewrite Hrow. intros [= <-]. auto.
    + destruct (hidden_run _ _ _ Hhid [] explicit) as (_ & -> & _).
      simpl. rewrite Hrow. intros [= <-]. auto.
  - destruct (owned_or_hidden task_id uid w) as [(t0 & Hrow0 & Hown)|Hhid].
    + pose proof (IH _ _ Hrow0) as (Hid0 & _).
      rewrite (delete_task_run _ _ _ _ Hrow0 Hown Hid0). simpl.
      rewrite lookup_delete. case_decide as Hk; [done|].
      rewrite Hrow. intros [= <-]. auto.
    + destruct (hidden_run _ _ _ Hhid [] None) as (_ & _ & ->).
      simpl. rewrite Hrow. intros [= <-]. auto.
Qed.

(** No request changes the owner or the id of a stored task. *)
Theorem stored_task_keeps_owner_and_id
    (r : request) (w : World) (k : Z) (t t' : Task) :
  reachable w ->
  tasks w !! k = Some t ->
  tasks (serve r w) !! k = Some t' ->
  user_id t' = user_id t /\ id t' = id t /\ id t' = Some k.
Proof.
  intros Hreach Hrow Hrow'.
  pose proof (reachable_rows_ok w Hreach) as Hrows.
  destruct (Hrows _ _ Hrow) as (Hid & _).
  destruct (serve_row_cases r w k t t' Hrows Hrow Hrow')
    as [->|[(kwargs & _ & ->)|(explicit & _ & ->)]]; [done| |].
  - destruct (setattr_fold_fixed kwargs t) as (Hfi & Hfu & _).
    unfold updated_row, set_updated_at. simpl. by rewrite Hfi, Hfu.
  - unfold updated_row, set_updated_at. simpl. done.
Qed.

Lemma stored_task_keeps_owner_and_id_witness :
  let w := serve (ReqCreate "alice" (mkTaskCreate "Buy milk" None)) (initial 0 []) in
  let t := mkTask (Some 1) "alice" "Buy milk" None false 0 0 in
  let t' := mkTask (Some 1) "alice" "X" None false 0 0 in
  tasks (serve (ReqUpdate 1 "alice" [kw_title "X"]) w) !! 1 = Some t'
  /\ user_id t' = user_id t.
Proof.
  intros w t t'. split; [reflexivity|].
  apply (stored_task_keeps_owner_and_id (ReqUpdate 1 "alice" [kw_title "X"]) w 1 t t').
  - apply reachable_serve, reachable_initial.
  - reflexivity.
  - reflexivity.
Defined.

(** The [completed] flag of a stored task changes only through a toggle of
    that task by its owner, or an update of that task by its owner that
    gives a [completed] value. *)
Theorem completed_changes_only_by_owner
    (r : request) (w : World) (k : Z) (t t' : Task) :
  reachable w ->
  tasks w !! k = Some t ->
  tasks (serve r w) !! k = Some t' ->
  completed t' <> completed t ->
  (exists explicit, r = ReqToggle k (user_id t) explicit)
  \/ (exists kwargs, r = ReqUpdate k (user_id t) kwargs
                     /\ given_completed kwargs = Some (completed t')).
Proof.
  intros Hreach Hrow Hrow' Hchg.
  pose proof (reachable_rows_ok w Hreach) as Hrows.
  destruct (serve_row_cases r w k t t' Hrows Hrow Hrow')
    as [->|[(kwargs & -> & ->)|(explicit & -> & _)]]; [done| |eauto].
  right. exists kwargs. split; [done|].
  destruct (setattr_fold_given kwargs t) as (_ & _ & Hgc).
  unfold updated_row, set_updated_at in *. simpl in *.
  rewrite Hgc in *. destruct (given_completed kwargs); simpl in *; [done|].
  by destruct Hchg.
Qed.

Lemma completed_changes_only_by_owner_witness :
  let w := serve (ReqCreate "alice" (mkTaskCreate "Buy milk" None)) (initial 0 []) in
  (exists explicit, ReqToggle 1 "alice" None = ReqToggle 1 "alice" explicit)
  \/ (exists kwargs, ReqToggle 1 "alice" None = ReqUpdate 1 "alice" kwargs
                     /\ given_completed kwargs = Some true).
Proof.
  intros w.
  apply (completed_changes_only_by_owner (ReqToggle 1 "alice" None) w 1
           (mkTask (Some 1) "alice" "Buy milk" None false 0 0)
           (mkTask (Some 1) "alice" "Buy milk" None true 0 0)).
  - apply reachable_serve, reachable_initial.
  - reflexivity.
  - reflexivity.
  - discriminate.
Defined.

(** *** Isolation between users *)

#[local] Instance newest_first_total' : Total newest_first.
Proof. intros a b. unfold newest_first. lia. Qed.

#[local] Instance newest_first_trans' : Transitive newest_first.
Proof. intros a b c. unfold newest_first. lia. Qed.

(** The rows of one user, as the listing query selects them, are the same
    up to order in two tables that agree on that user's rows. *)
Lemma owner_rows_perm (uid : string) (m m' : gmap Z Task) :
  (forall k t, user_id t = uid -> (m !! k = Some t <-> m' !! k = Some t)) ->
  filter (fun t => user_id t = uid) (map_to_list m).*2
  ≡ₚ filter (fun t => user_id t = uid) (map_to_list m').*2.
Proof.
  intros Hagree. rewrite !filter_fmap_comm. apply fmap_Permutation.
  apply NoDup_Permutation.
  - apply NoDup_filter, NoDup_map_to_list.
  - apply NoDup_filter, NoDup_map_to_list.
  - intros [k t]. rewrite !list_elem_of_filter, !elem_of_map_to_list. simpl.
    split; intros [Hown Hrow]; (split; [done|]); by apply (Hagree k t Hown).
Qed.

(** A request served for one user leaves the rows of every other user as
    they are and adds none to them, so the listing of any other user holds
    the same tasks before and after. *)
Theorem other_users_untouched (r : request) (w : World) (uid : string) :
  reachable w ->
  uid <> request_user r ->
  (forall k t, user_id t = uid ->
     (tasks w !! k = Some t <-> tasks (serve r w) !! k = Some t))
  /\ exists l l',
      fst (get_user_tasks uid w) = Return l
      /\ fst (get_user_tasks uid (serve r w)) = Return l'
      /\ l' ≡ₚ l.
Proof.
  intros Hreach Hother.
  pose proof (reachable_rows_ok w Hreach) as Hrows.
  assert (Hagree : forall k t, user_id t = uid ->
            (tasks w !! k = Some t <-> tasks (serve r w) !! k = Some t)).
  { intros k t Hown.
    destruct r as [u task_data|task_id u kwargs|task_id u explicit|task_id u];
      simpl in Hother |- *.
    - rewrite create_task_run. simpl. rewrite lookup_insert. case_decide as Hk.
      + subst k. split.
        * intros Hrow. destruct (Hrows _ _ Hrow) as (_ & Hlt & _). lia.
        * intros [= <-]. simpl in Hown. by destruct Hother.
      + done.
    - destruct (owned_or_hidden task_id u w) as [(t0 & Hrow0 & Hown0)|Hhid].
      + destruct (Hrows _ _ Hrow0) as (Hid0 & _).
        rewrite (update_task_run _ _ kwargs _ _ Hrow0 Hown0 Hid0). cbn [snd tasks].
        rewrite lookup_insert. case_decide as Hk; [|done].
        subst k. rewrite Hrow0. split.
        * intros [= <-]. congruence.
        * intros [= <-]. destruct (setattr_fold_fixed kwargs t0) as (_ & Hfu & _).
          unfold updated_row, set_updated_at in Hown. simpl in Hown. congruence.
      + by destruct (hidden_run _ _ _ Hhid kwargs None) as (-> & _).
    - destruct (owned_or_hidden task_id u w) as [(t0 & Hrow0 & Hown0)|Hhid].
      + destruct (Hrows _ _ Hrow0) as (Hid0 & _).
        rewrite (toggle_completion_run _ _ explicit _ _ Hrow0 Hown0 Hid0).
        cbn [snd tasks].
        rewrite lookup_insert. case_decide as Hk; [|done].
        subst k. rewrite Hrow0. split.
        * intros [= <-]. congruence.
        * intros [= <-]. unfold updated_row, set_updated_at in Hown.
          simpl in Hown. congruence.
      + by destruct (hidden_run _ _ _ Hhid [] explicit) as (_ & -> & _).
    - destruct (owned_or_hidden task_id u w) as [(t0 & Hrow0 & Hown0)|Hhid].
      + destruct (Hrows _ _ Hrow0) as (Hid0 & _).
        rewrite (delete_task_run _ _ _ _ Hrow0 Hown0 Hid0). simpl.
        rewrite lookup_delete. case_decide as Hk; [|done].
        subst k. rewrite Hrow0. split; [|done]. intros [= <-]. congruence.
      + by destruct (hidden_run _ _ _ Hhid [] None) as (_ & _ & ->). }
  split; [exact Hagree|].
  eexists _, _. split; [reflexivity|]. split; [reflexivity|].
  rewrite !merge_sort_Permutation. symmetry. by apply owner_rows_perm.
Qed.

Lemma other_users_untouched_witness :
  let w := serve (ReqCreate "bob" (mkTaskCreate "Same title" None))
             (serve (ReqCreate "alice" (mkTaskCreate "Same title" None))
                (initial 0 [])) in
  let a := mkTask (Some 1) "alice" "Same title" None false 0 0 in
  tasks w !! 1 = Some a
  /\ tasks (serve (ReqDelete 1 "bob") w) !! 1 = Some a.
Proof.
  intros w a. split; [reflexivity|].
  apply (other_users_untouched (ReqDelete 1 "bob") w "alice").
  - apply reachable_serve, reachable_serve, reachable_initial.
  - discriminate.
  - reflexivity.
  - reflexivity.
Defined.

(** *** More on the listing *)

(** In a reachable world every listed task has an id and no two listed
    tasks share one. *)
Theorem listing_ids_distinct (uid : string) (w : World) :
  reachable w ->
  exists l,
    fst (get_user_tasks uid w) = Return l
    /\ Forall (fun t => is_Some (id t)) l
    /\ NoDup (id <$> l).
Proof.
  intros Hreach. pose proof (reachable_rows_ok w Hreach) as Hrows.
  eexists. split; [reflexivity|].
  assert (Hin : forall t,
    t ∈ filter (fun t => user_id t = uid) (map_to_list (tasks w)).*2 ->
    exists k, tasks w !! k = Some t /\ id t = Some k).
  { intros t. rewrite list_elem_of_filter, list_elem_of_fmap.
    intros (_ & [k t'] & -> & Hrow%elem_of_map_to_list).
    exists k. split; [done|]. by destruct (Hrows _ _ Hrow) as (Hid & _). }
  split.
  - apply Forall_forall. intros t. rewrite merge_sort_Permutation.
    intros (k & _ & Hid)%Hin. by rewrite Hid.
  - rewrite merge_sort_Permutation, filter_fmap_comm, <- list_fmap_compose.
    apply NoDup_fmap_2_strong; [|apply NoDup_filter, NoDup_map_to_list].
    intros [k1 t1] [k2 t2].
    rewrite !list_elem_of_filter, !elem_of_map_to_list. simpl.
    intros [_ Hrow1] [_ Hrow2] Heq.
    destruct (Hrows _ _ Hrow1) as (Hid1 & _).
    destruct (Hrows _ _ Hrow2) as (Hid2 & _).
    assert (k1 = k2) by congruence. subst k2.
    rewrite Hrow1 in Hrow2. by injection Hrow2 as ->.
Qed.

Lemma listing_ids_distinct_witness :
  exists l,
    fst (get_user_tasks "alice"
           (serve (ReqCreate "alice" (mkTaskCreate "Buy milk" None)) (initial 0 [])))
    = Return l
    /\ Forall (fun t => is_Some (id t)) l
    /\ NoDup (id <$> l).
Proof.
  apply (listing_ids_distinct "alice").
  apply reachable_serve, reachable_initial.
Defined.

(** When the clock has moved since the last request, a task just created
    is the first of its owner's listing. *)
Theorem created_task_heads_listing
    (uid : string) (task_data : TaskCreate) (w : World) :
  reachable w ->
  clock w < next_reading w ->
  exists t w' l,
    create_task uid task_data uid w = (Return t, w')
    /\ fst (get_user_tasks uid w') = Return l
    /\ head l = Some t.
Proof.
  intros Hreach Hmoved. pose proof (reachable_rows_ok w Hreach) as Hrows.
  rewrite create_task_run. eexists _, _, _.
  split; [reflexivity|]. split; [reflexivity|].
  cbn [snd tasks].
  set (new := mkTask (Some (tasks_id_seq w)) uid (tc_title task_data)
                (tc_description task_data) false (next_reading w)
                (next_reading w + Z.of_N (hd 0%N (tail (drift w))))).
  set (rows := filter (fun t => user_id t = uid)
                 (map_to_list (<[tasks_id_seq w := new]> (tasks w))).*2).
  assert (Hmem : forall t, t ∈ merge_sort newest_first rows ->
            t = new \/ created_at t < created_at new).
  { intros t. rewrite merge_sort_Permutation. unfold rows.
    rewrite list_elem_of_filter, list_elem_of_fmap.
    intros (_ & [k t'] & -> & Hrow%elem_of_map_to_list). simpl.
    rewrite lookup_insert in Hrow. case_decide as Hk.
    - left. by injection Hrow as <-.
    - right. destruct (Hrows _ _ Hrow) as (_ & _ & Hcu & Hu). simpl. lia. }
  assert (Hnew : new ∈ merge_sort newest_first rows).
  { rewrite merge_sort_Permutation. unfold rows.
    rewrite list_elem_of_filter, list_elem_of_fmap. split; [done|].
    exists (tasks_id_seq w, new). split; [done|].
    apply elem_of_map_to_list. by rewrite lookup_insert_eq. }
  pose proof (StronglySorted_merge_sort newest_first rows) as Hsorted.
  destruct (merge_sort newest_first rows) as [|h l] eqn:Hl.
  - by apply not_elem_of_nil in Hnew.
  - simpl. f_equal.
    destruct (Hmem h) as [->|Hlt]; [apply list_elem_of_here|done|].
    apply elem_of_cons in Hnew as [->|Hin]; [done|].
    apply StronglySorted_inv in Hsorted as [_ Hall].
    rewrite Forall_forall in Hall. specialize (Hall new Hin).
    unfold newest_first in Hall. lia.
Qed.

Lemma created_task_heads_listing_witness :
  let w := serve (ReqCreate "alice" (mkTaskCreate "Buy milk" None))
             (initial 0 [1; 0; 5; 0]%N) in
  exists t w' l,
    create_task "alice" (mkTaskCreate "Call mum" None) "alice" w = (Return t, w')
    /\ fst (get_user_tasks "alice" w') = Return l
    /\ head l = Some t.
Proof.
  intros w.
  apply (created_task_heads_listing "alice" (mkTaskCreate "Call mum" None) w).
  - apply reachable_serve, reachable_initial.
  - vm_compute. reflexivity.
Defined.

(** *** Token verification in front of the handlers *)

Lemma str_bool_true s : str_bool s = true <-> s <> "".
Proof. by destruct s. Qed.

(** [verify_token] returns a subject exactly for a token that decodes to
    a payload with a non-empty "sub"; an expired token gives the 401
    "Token expired"; everything else ends in the [AttributeError]. *)
Lemma verify_token_cases jwt_decode secret token :
  (exists payload sub,
      jwt_decode token secret ["HS256"] = JwtPayload payload
      /\ payload !! "sub" = Some sub /\ sub <> ""
      /\ verify_token jwt_decode secret token = inl sub)
  \/ (jwt_decode token secret ["HS256"] = JwtRaises ExpiredSignatureError
      /\ verify_token jwt_decode secret token
         = inr (HTTPException_raised (HTTP 401 "Token expired")))
  \/ ((~ exists payload sub,
         jwt_decode token secret ["HS256"] = JwtPayload payload
         /\ payload !! "sub" = Some sub /\ sub <> "")
      /\ jwt_decode token secret ["HS256"] <> JwtRaises ExpiredSignatureError
      /\ exists message,
         verify_token jwt_decode secret token = inr (AttributeError message)).
Proof.
  unfold verify_token, verify_token_try.
  destruct (jwt_decode token secret ["HS256"]) as [payload|exc] eqn:Hdec.
  - destruct (payload !! "sub") as [sub|] eqn:Hsub.
    + destruct (str_bool sub) eqn:Hb.
      * left. exists payload, sub. by rewrite <- str_bool_true.
      * right. right. split; [|split; [done|by eexists]].
        intros (p' & s' & [= <-] & Hs' & Hne). rewrite Hsub in Hs'.
        injection Hs' as <-. apply str_bool_true in Hne. congruence.
    + right. right. split; [|split; [done|by eexists]].
      intros (p' & s' & [= <-] & Hs' & _). congruence.
  - destruct exc as [| |e|message].
    + right. left. done.
    + right. right. split; [|split; [done|by eexists]].
      intros (p' & s' & Hd & _). discriminate.
    + right. right. split; [|split; [done|by eexists]].
      intros (p' & s' & Hd & _). discriminate.
    + right. right. split; [|split; [done|by eexists]].
      intros (p' & s' & Hd & _). discriminate.
Qed.

(** The create route fails closed.  It reaches the task store exactly when
    the token decodes to a payload whose "sub" is the non-empty user id of
    the path.  In every other case the request is answered with an error
    and the world is untouched (no session call, no clock reading): 403
    Forbidden when the token is good but names another user, 401 "Token
    expired" when [jwt.decode] raises [ExpiredSignatureError], and 500
    "Internal server error" for every other token (undecodable, or
    without a non-empty "sub"), since those end in the [AttributeError]
    of the second [except] clause and not in a 401. *)
Theorem post_tasks_fails_closed
    (jwt_decode : string -> string -> list string -> jwt_decoded)
    (secret token user_id_ : string) (task_data : TaskCreate) (w : World) :
  ((exists t w', post_tasks jwt_decode secret token user_id_ task_data w
                 = (Return t, w'))
   <-> exists payload,
         jwt_decode token secret ["HS256"] = JwtPayload payload
         /\ payload !! "sub" = Some user_id_ /\ user_id_ <> "")
  /\ (forall e w',
        post_tasks jwt_decode secret token user_id_ task_data w = (Raise e, w') ->
        w' = w
        /\ ((e = HTTP 403 "Forbidden"
             /\ exists payload sub,
                  jwt_decode token secret ["HS256"] = JwtPayload payload
                  /\ payload !! "sub" = Some sub
                  /\ sub <> "" /\ sub <> user_id_)
            \/ (e = HTTP 401 "Token expired"
                /\ jwt_decode token secret ["HS256"]
                   = JwtRaises ExpiredSignatureError)
            \/ (e = HTTP 500 "Internal server error"
                /\ jwt_decode token secret ["HS256"]
                   <> JwtRaises ExpiredSignatureError
                /\ ~ exists payload sub,
                       jwt_decode token secret ["HS256"] = JwtPayload payload
                       /\ payload !! "sub" = Some sub /\ sub <> ""))).
Proof.
  unfold post_tasks.
  destruct (verify_token_cases jwt_decode secret token)
    as [(payload & sub & Hdec & Hsub & Hne & ->)
       |[(Hdec & ->)|(Hnone & Hnexp & message & ->)]].
  - destruct (decide (user_id_ = sub)) as [->|Hdiff].
    + rewrite create_task_run. split.
      * split; [intros _; by exists payload | intros _; by eexists _, _].
      * intros e w' [=].
    + assert (Hrun : create_task user_id_ task_data sub w
                     = (Raise (HTTP 403 "Forbidden"), w)).
      { unfold create_task. by rewrite bool_decide_eq_true_2. }
      rewrite Hrun. split.
      * split; [intros (t & w' & [=])|].
        intros (p' & Hd & Hs & _). rewrite Hdec in Hd. injection Hd as <-.
        congruence.
      * intros e w' [= <- <-]. split; [done|]. left. split; [done|].
        exists payload, sub. repeat split; try done; congruence.
  - split.
    + split; [intros (t & w' & [=])|].
      intros (payload & Hd & _). rewrite Hdec in Hd. discriminate.
    + intros e w' [= <- <-]. split; [done|]. right. left. done.
  - split.
    + split; [intros (t & w' & [=])|].
      intros (payload & Hd & Hs & Hne). destruct Hnone. by exists payload, user_id_.
    + intros e w' [= <- <-]. split; [done|]. right. right. done.
Qed.

Example post_tasks_examples :
  let decode := fun (token _ : string) (_ : list string) =>
    if String.eqb token "good" then JwtPayload {[ "sub" := "alice" ]}
    else if String.eqb token "old" then JwtRaises ExpiredSignatureError
    else if String.eqb token "anonymous" then JwtPayload ∅
    else JwtRaises InvalidTokenError in
  let data := mkTaskCreate "Buy milk" None in
  let w := initial 0 [] in
  fst (post_tasks decode "secret" "good" "alice" data w)
  = Return (mkTask (Some 1) "alice" "Buy milk" None false 0 0)
  /\ post_tasks decode "secret" "good" "bob" data w
     = (Raise (HTTP 403 "Forbidden"), w)
  /\ post_tasks decode "secret" "old" "alice" data w
     = (Raise (HTTP 401 "Token expired"), w)
  /\ post_tasks decode "secret" "anonymous" "alice" data w
     = (Raise (HTTP 500 "Internal server error"), w)
  /\ post_tasks decode "secret" "garbage" "alice" data w
     = (Raise (HTTP 500 "Internal server error"), w).
Proof. repeat split. Qed.

(** *** Connection string *)

Lemma str_contains_sslmode_appended url :
  str_contains "sslmode" (String.append url "?sslmode=require") = true.
Proof.
  induction url as [|c url IH]; [reflexivity|].
  change (String.append (String c url) "?sslmode=require")
    with (String c (String.append url "?sslmode=require")).
  cbn [str_contains]. rewrite IH. apply orb_true_r.
Qed.

Lemma prefix_append url rest : String.prefix url (String.append url rest) = true.
Proof.
  induction url as [|c url IH]; [by destruct rest|].
  simpl. by destruct (ascii_dec c c).
Qed.

(** The connection string always asks for SSL: a set, non-empty
    [DATABASE_URL] ends up mentioning "sslmode" and still starts with the
    configured value; one that mentions it already is kept as it is; the
    rule applied twice changes nothing more; an unset or empty value stays
    unset or empty. *)
Theorem DATABASE_URL_requires_ssl (getenv : option string) :
  DATABASE_URL (DATABASE_URL getenv) = DATABASE_URL getenv
  /\ (forall url, getenv = Some url -> url <> "" ->
        exists url', DATABASE_URL getenv = Some url'
                     /\ str_contains "sslmode" url' = true
                     /\ String.prefix url url' = true)
  /\ (forall url, getenv = Some url -> str_contains "sslmode" url = true ->
        DATABASE_URL getenv = Some url)
  /\ (getenv = None -> DATABASE_URL getenv = None)
  /\ (getenv = Some "" -> DATABASE_URL getenv = Some "").
Proof.
  split; [|split; [|split; [|split]]].
  - destruct getenv as [url|]; [|done]. unfold DATABASE_URL.
    destruct (str_bool url) eqn:Hb; simpl.
    + destruct (str_contains "sslmode" url) eqn:Hc; simpl.
      * by rewrite Hb, Hc.
      * rewrite str_contains_sslmode_appended. simpl. by rewrite andb_false_r.
    + by rewrite Hb.
  - intros url -> Hne. apply str_bool_true in Hne. unfold DATABASE_URL.
    rewrite Hne. simpl. destruct (str_contains "sslmode" url) eqn:Hc; simpl.
    + exists url. split; [done|]. split; [done|].
      clear. induction url as [|c url IH]; [done|].
      simpl. by destruct (ascii_dec c c).
    + eexists. split; [done|].
      split; [apply str_contains_sslmode_appended | apply prefix_append].
  - intros url -> Hc. unfold DATABASE_URL. rewrite Hc. simpl.
    by rewrite andb_false_r.
  - by intros ->.
  - by intros ->.
Qed.

Example DATABASE_URL_examples :
  DATABASE_URL (Some "postgresql://u:p@host/db")
  = Some "postgresql://u:p@host/db?sslmode=require"
  /\ DATABASE_URL (Some "postgresql://u:p@host/db?sslmode=require")
     = Some "postgresql://u:p@host/db?sslmode=require"
  /\ DATABASE_URL (Some "postgresql://u:p@host/db?connect_timeout=10")
     = Some "postgresql://u:p@host/db?connect_timeout=10?sslmode=require".
Proof. repeat split. Qed.

End BackendFurther.

(* ===================================================================== *)
(** ** Further properties of the front end *)
(* ===================================================================== *)

Section FrontendFurther.
Import Frontend.

(** *** Trimming *)

Lemma trimStart_head s c :
  JS.head_unit (JS.trimStart s) = Some c -> JS.is_whitespace c = false.
Proof.
  induction s as [|a s IH]; simpl; [done|].
  destruct (JS.is_whitespace a) eqn:Ha; [done|]. simpl. by intros [= <-].
Qed.

Lemma trimEnd_keeps_head a s :
  JS.is_whitespace a = false ->
  exists r, JS.trimEnd (String a s) = String a r.
Proof.
  intros Ha. simpl. destruct (JS.trimEnd s); [rewrite Ha|]; eauto.
Qed.

Lemma last_unit_cons a s : is_Some (JS.last_unit (String a s)).
Proof. simpl. destruct (JS.last_unit s); eauto. Qed.

Lemma trimEnd_last s c :
  JS.last_unit (JS.trimEnd s) = Some c -> JS.is_whitespace c = false.
Proof.
  induction s as [|a s IH]; simpl; [done|].
  destruct (JS.trimEnd s) as [|d r] eqn:Hr.
  - destruct (JS.is_whitespace a) eqn:Ha; simpl; [done|]. by intros [= <-].
  - change (JS.last_unit (String a (String d r)))
      with (match JS.last_unit (String d r) with
            | None => Some a
            | Some e => Some e
            end).
    destruct (last_unit_cons d r) as [e He]. rewrite He. intros [= <-]. auto.
Qed.

Lemma trimStart_fixed s :
  (forall c, JS.head_unit s = Some c -> JS.is_whitespace c = false) ->
  JS.trimStart s = s.
Proof.
  destruct s as [|a s]; [done|]. intros Hh. simpl. by rewrite (Hh a).
Qed.

Lemma trimEnd_fixed s :
  (forall c, JS.last_unit s = Some c -> JS.is_whitespace c = false) ->
  JS.trimEnd s = s.
Proof.
  induction s as [|a s IH]; [done|]. intros Hl. simpl.
  destruct s as [|d s'].
  - simpl. by rewrite (Hl a).
  - rewrite IH; [done|]. intros c Hc. apply Hl.
    change (JS.last_unit (String a (String d s')))
      with (match JS.last_unit (String d s') with
            | None => Some a
            | Some e => Some e
            end).
    by rewrite Hc.
Qed.

Lemma trim_trimmed s : JS.trimmed (JS.trim s).
Proof.
  unfold JS.trimmed, JS.trim. intros c [Hh|Hl]; [|by eapply trimEnd_last].
  destruct (JS.trimStart s) as [|a x] eqn:Hx; [done|].
  assert (Ha : JS.is_whitespace a = false).
  { apply (trimStart_head s). by rewrite Hx. }
  destruct (trimEnd_keeps_head a x Ha) as [r Hr]. rewrite Hr in Hh.
  by injection Hh as <-.
Qed.

Lemma trim_fixed s : JS.trimmed s -> JS.trim s = s.
Proof.
  intros Ht. unfold JS.trim.
  rewrite trimStart_fixed; [|intros c Hc; apply Ht; by left].
  apply trimEnd_fixed. intros c Hc. apply Ht. by right.
Qed.

Lemma trim_idempotent s : JS.trim (JS.trim s) = JS.trim s.
Proof. apply trim_fixed, trim_trimmed. Qed.

(** *** What the form submits *)

(** Whatever is typed, what [handleSubmit] hands to [onSubmit] is
    normalised: the title is not empty and neither starts nor ends with
    white space, and a description, when one is sent, likewise. *)
Theorem handleSubmit_payload_trimmed {S : Type}
    (onSubmit : SubmitData -> S -> option Thrown * S) (st : FormState) (s : S) :
  Forall (fun data =>
            (sd_title data <> "" /\ JS.trimmed (sd_title data))
            /\ match sd_description data with
               | Some d => d <> "" /\ JS.trimmed d
               | None => True
               end)
         (snd (handleSubmit onSubmit st s)).
Proof.
  rewrite handleSubmit_calls.
  destruct (JS.truthy (JS.trim (fd_title (formData st)))) eqn:Ht; [|constructor].
  constructor; [|constructor]. simpl. split.
  - split; [|apply trim_trimmed]. intros Hblank. by rewrite Hblank in Ht.
  - unfold JS.or_undefined.
    destruct (JS.truthy (JS.trim (fd_description (formData st)))) eqn:Hd; [|done].
    split; [|apply trim_trimmed]. intros Hblank. by rewrite Hblank in Hd.
Qed.

(** When the submit button is enabled, submitting calls [onSubmit] exactly
    once, with the trimmed title: the button and [handleSubmit] agree on
    what a blank title is. *)
Theorem enabled_button_submits {S : Type}
    (onSubmit : SubmitData -> S -> option Thrown * S) (st : FormState) (s : S) :
  submit_disabled st = false ->
  exists data,
    snd (handleSubmit onSubmit st s) = [data]
    /\ sd_title data = JS.trim (fd_title (formData st)).
Proof.
  unfold submit_disabled. intros Hen. apply orb_false_elim in Hen as [_ Ht].
  apply negb_false_iff in Ht. rewrite handleSubmit_calls, Ht. by eexists.
Qed.

Lemma enabled_button_submits_witness :
  exists data,
    snd (handleSubmit (fun (_ : SubmitData) (s : unit) => (@None Thrown, s))
           (mkFormState (mkFormData " Buy milk " "") false "") tt) = [data]
    /\ sd_title data = JS.trim " Buy milk ".
Proof.
  apply (enabled_button_submits
           (fun (_ : SubmitData) (s : unit) => (@None Thrown, s))
           (mkFormState (mkFormData " Buy milk " "") false "") tt).
  reflexivity.
Defined.

(** Editing round trip: when the form is opened on a task whose title and
    description are what the form once submitted and is submitted again
    unchanged, it submits those same values. *)
Theorem edit_unchanged_resubmits {S S' : Type}
    (onSubmit : SubmitData -> S -> option Thrown * S)
    (onSubmit' : SubmitData -> S' -> option Thrown * S')
    (st : FormState) (s : S) (s' : S') (data : SubmitData) (task : Task) :
  snd (handleSubmit onSubmit st s) = [data] ->
  title task = sd_title data ->
  description task = sd_description data ->
  snd (handleSubmit onSubmit' (TaskForm_init (Some task)) s') = [data].
Proof.
  rewrite !handleSubmit_calls. intros Hsub Htitle Hdesc.
  destruct (JS.truthy (JS.trim (fd_title (formData st)))) eqn:Ht; [|done].
  injection Hsub as <-. simpl in Htitle, Hdesc |- *.
  rewrite Htitle, trim_idempotent, Ht. do 2 f_equal.
  rewrite Hdesc. unfold JS.or_undefined.
  destruct (JS.truthy (JS.trim (fd_description (formData st)))) eqn:Hd.
  - by rewrite Hd, trim_idempotent, Hd.
  - reflexivity.
Qed.

Lemma edit_unchanged_resubmits_witness :
  let accept := fun (_ : SubmitData) (s : unit) => (@None Thrown, s) in
  snd (handleSubmit accept
         (TaskForm_init (Some (mkTask 1 "alice" "Buy milk" None false "t0" "t0"))) tt)
  = [mkSubmitData "Buy milk" None].
Proof.
  intros accept.
  apply (edit_unchanged_resubmits accept accept
           (mkFormState (mkFormData " Buy milk " "  ") false "") tt tt).
  - reflexivity.
  - reflexivity.
  - reflexivity.
Defined.

(** *** Delete needs a second click *)

Lemma item_run_bound task showConfirm events :
  (2 * length (snd (item_run task showConfirm events))
   <= clicks events + (if showConfirm then 1 else 0))%nat
  /\ Forall (fun i => i = id task) (snd (item_run task showConfirm events)).
Proof.
  revert showConfirm. induction events as [|e events IH]; intros showConfirm.
  - simpl. split; [lia|constructor].
  - simpl. destruct e; simpl.
    + destruct showConfirm; simpl.
      * destruct (IH false) as [Hb Hall].
        destruct (item_run task false events) as [final calls]. simpl in *.
        split; [lia|]. by constructor.
      * destruct (IH true) as [Hb Hall].
        destruct (item_run task true events) as [final calls]. simpl in *.
        split; [lia|done].
    + destruct (IH false) as [Hb Hall].
      destruct (item_run task false events) as [final calls]. simpl in *.
      split; [destruct showConfirm; lia|done].
Qed.

(** From a task item that is not asking for confirmation, any run of
    clicks on Delete and timer expiries calls [onDelete] at most once per
    two clicks, and only ever with the id of the item's own task; so a
    single click never deletes. *)
Theorem delete_takes_two_clicks (task : Task) (events : list ItemEvent) :
  (2 * length (snd (item_run task false events)) <= clicks events)%nat
  /\ Forall (fun i => i = id task) (snd (item_run task false events))
  /\ (clicks events <= 1 -> snd (item_run task false events) = [])%nat.
Proof.
  destruct (item_run_bound task false events) as [Hb Hall].
  split; [lia|]. split; [done|].
  intros Hone. destruct (snd (item_run task false events)); [done|]. simpl in Hb. lia.
Qed.

Example item_run_examples :
  let task := mkTask 7 "alice" "Buy milk" None false "t0" "t0" in
  item_run task false [ClickDelete; ClickDelete] = (false, [7])
  /\ item_run task false [ClickDelete; TimerFires; ClickDelete] = (true, [])
  /\ item_run task false [ClickDelete] = (true, []).
Proof. repeat split. Qed.

(** *** The page's list after a toggle, a delete and a create *)

(** Replacing by id, as [handleToggleComplete] and [handleUpdateTask] do,
    keeps the ids of the list in place. *)
Lemma replace_by_id_ids (updatedTask : Task) (l : list Task) :
  id <$> map (fun t => if (id t =? id updatedTask)%Z then updatedTask else t) l
  = id <$> l.
Proof.
  induction l as [|t l IH]; [done|]. simpl. f_equal; [|exact IH].
  destruct (Z.eqb_spec (id t) (id updatedTask)); congruence.
Qed.

(** A toggle that succeeds keeps the page's list in shape: same length,
    same ids in the same places, every task with another id untouched and
    every task with the returned id replaced by the returned task.  A
    toggle that fails, or that finds no signed-in user, leaves the page as
    it is; the failure message goes to [setError]. *)
Theorem handleToggleComplete_keeps_shape
    (api_toggleTaskCompletion : string -> Z -> string + Task)
    (taskId : Z) (p : PageState) :
  let p' := fst (handleToggleComplete api_toggleTaskCompletion taskId p) in
  length (tasks p') = length (tasks p)
  /\ id <$> tasks p' = id <$> tasks p
  /\ (user p = None -> handleToggleComplete api_toggleTaskCompletion taskId p = (p, None))
  /\ (forall u message,
        user p = Some u -> api_toggleTaskCompletion (u_id u) taskId = inl message ->
        handleToggleComplete api_toggleTaskCompletion taskId p = (p, Some message))
  /\ (forall u updatedTask,
        user p = Some u -> api_toggleTaskCompletion (u_id u) taskId = inr updatedTask ->
        forall i t, tasks p !! i = Some t ->
          tasks p' !! i = Some (if (id t =? id updatedTask)%Z then updatedTask else t)).
Proof.
  intros p'. subst p'. unfold handleToggleComplete.
  destruct (user p) as [u|] eqn:Hu; simpl.
  - destruct (api_toggleTaskCompletion (u_id u) taskId) as [message|updatedTask] eqn:Hapi;
      simpl.
    + split; [done|]. split; [done|]. split; [done|]. split.
      * intros u' message' [= <-] Hm. rewrite Hapi in Hm. by injection Hm as <-.
      * intros u' t' [= <-] Hm. rewrite Hapi in Hm. discriminate.
    + split; [by rewrite length_map|]. split; [apply replace_by_id_ids|].
      split; [done|]. split.
      * intros u' m' [= <-] Hm. rewrite Hapi in Hm. discriminate.
      * intros u' t' [= <-] Hm i t Hi. rewrite Hapi in Hm. injection Hm as <-.
        by rewrite list_lookup_fmap, Hi.
  - split; [done|]. split; [done|]. split; [done|]. split; by intros u'.
Qed.

(** A delete that succeeds removes from the page's list exactly the tasks
    with that id and keeps the others in their order; a delete that fails,
    or that finds no signed-in user, leaves the page as it is. *)
Theorem handleDeleteTask_removes_by_id
    (api_deleteTask : string -> Z -> option string) (taskId : Z) (p : PageState) :
  let p' := fst (handleDeleteTask api_deleteTask taskId p) in
  tasks p' `sublist_of` tasks p
  /\ (user p = None -> handleDeleteTask api_deleteTask taskId p = (p, None))
  /\ (forall u message,
        user p = Some u -> api_deleteTask (u_id u) taskId = Some message ->
        handleDeleteTask api_deleteTask taskId p = (p, Some message))
  /\ (forall u,
        user p = Some u -> api_deleteTask (u_id u) taskId = None ->
        (forall t, t ∈ tasks p' <-> t ∈ tasks p /\ id t <> taskId)
        /\ user p' = user p /\ editingTask p' = editingTask p
        /\ showForm p' = showForm p /\ filter_ p' = filter_ p).
Proof.
  intros p'. subst p'. unfold handleDeleteTask.
  destruct (user p) as [u|] eqn:Hu; simpl.
  - destruct (api_deleteTask (u_id u) taskId) as [message|] eqn:Hapi; simpl.
    + split; [done|]. split; [done|]. split.
      * intros u' message' [= <-] Hm. rewrite Hapi in Hm. by injection Hm as <-.
      * intros u' [= <-] Hm. rewrite Hapi in Hm. discriminate.
    + split; [apply sublist_filter|]. split; [done|]. split.
      * intros u' m' [= <-] Hm. rewrite Hapi in Hm. discriminate.
      * intros u' [= <-] _. split; [|done].
        intros t. by rewrite JS_filter_elem_of, negb_true_iff, Z.eqb_neq.
  - split; [done|]. split; [done|]. split; by intros u'.
Qed.

(** Creating a task and then deleting it brings the page's list back,
    provided the new task's id was not in the list. *)
Theorem create_then_delete_restores_list
    (api_createTask : string -> SubmitData -> string + Task)
    (api_deleteTask : string -> Z -> option string)
    (data : SubmitData) (p : PageState) (u : User) (newTask : Task) :
  user p = Some u ->
  api_createTask (u_id u) data = inr newTask ->
  api_deleteTask (u_id u) (id newTask) = None ->
  Forall (fun t => id t <> id newTask) (tasks p) ->
  let p1 := snd (handleCreateTask api_createTask data p) in
  tasks p1 = newTask :: tasks p
  /\ tasks (fst (handleDeleteTask api_deleteTask (id newTask) p1)) = tasks p.
Proof.
  intros Hu Hc Hd Hfresh p1. subst p1.
  unfold handleCreateTask, handleDeleteTask. rewrite Hu, Hc. simpl.
  rewrite Hd. simpl. split; [done|].
  rewrite JS_filter_cons, Z.eqb_refl. simpl.
  induction (tasks p) as [|t l IH]; [done|].
  apply Forall_cons in Hfresh as [Ht Hl].
  rewrite JS_filter_cons. apply Z.eqb_neq in Ht. rewrite Ht. simpl.
  by rewrite IH.
Qed.

Lemma create_then_delete_restores_list_witness :
  let old := mkTask 1 "alice" "Buy milk" None false "t0" "t0" in
  let new := mkTask 2 "alice" "Call mum" None false "t1" "t1" in
  let alice := mkUser "alice" None "a@x.com" in
  let api_c := fun (_ : string) (_ : SubmitData) => @inr string Task new in
  let api_d := fun (_ : string) (_ : Z) => @None string in
  let p := mkPageState (Some alice) [old] true None "all" in
  tasks (snd (handleCreateTask api_c (mkSubmitData "Call mum" None) p)) = [new; old]
  /\ tasks (fst (handleDeleteTask api_d 2
                   (snd (handleCreateTask api_c (mkSubmitData "Call mum" None) p))))
     = [old].
Proof.
  intros old new alice api_c api_d p.
  apply (create_then_delete_restores_list api_c api_d
           (mkSubmitData "Call mum" None) p alice new).
  - reflexivity.
  - reflexivity.
  - reflexivity.
  - repeat constructor. discriminate.
Defined.

(** *** Filter and sections together *)

Lemma JS_filter_filter {A} (p q : A -> bool) (l : list A) :
  JS.filter p (JS.filter q l) = JS.filter (fun x => q x && p x) l.
Proof.
  induction l as [|x l IH]; [done|].
  rewrite !JS_filter_cons. destruct (q x); simpl; [|done].
  rewrite JS_filter_cons. by rewrite IH.
Qed.

Lemma JS_filter_none {A} (p : A -> bool) (l : list A) :
  (forall x, p x = false) -> JS.filter p l = [].
Proof.
  intros Hp. induction l as [|x l IH]; [done|]. by rewrite JS_filter_cons, Hp.
Qed.

Lemma JS_filter_ext {A} (p q : A -> bool) (l : list A) :
  (forall x, p x = q x) -> JS.filter p l = JS.filter q l.
Proof.
  intros Hpq. induction l as [|x l IH]; [done|].
  by rewrite !JS_filter_cons, Hpq, IH.
Qed.

(** What [TaskList] shows of the page's filtered list: under "active" the
    Completed section is empty and To Do holds the whole filtered list,
    under "completed" it is the other way round; filtering a filtered list
    again changes nothing; while loading, the list is never shown, and the
    empty state shows exactly when nothing passes the filter. *)
Theorem TaskList_of_filtered (tasks : list Task) (filter_ : string) :
  (completedTasks (filteredTasks tasks "active") = []
   /\ incompleteTasks (filteredTasks tasks "active") = filteredTasks tasks "active")
  /\ (incompleteTasks (filteredTasks tasks "completed") = []
      /\ completedTasks (filteredTasks tasks "completed")
         = filteredTasks tasks "completed")
  /\ filteredTasks (filteredTasks tasks filter_) filter_ = filteredTasks tasks filter_
  /\ TaskList (filteredTasks tasks filter_) true = ViewLoading
  /\ (TaskList (filteredTasks tasks filter_) false = ViewEmpty
      <-> filteredTasks tasks filter_ = []).
Proof.
  unfold completedTasks, incompleteTasks, filteredTasks.
  split; [|split; [|split; [|split]]].
  - cbn. rewrite !JS_filter_filter. split.
    + apply JS_filter_none. intros x. by destruct (completed x).
    + apply JS_filter_ext. intros x. by destruct (completed x).
  - cbn. rewrite !JS_filter_filter. split.
    + apply JS_filter_none. intros x. by destruct (completed x).
    + apply JS_filter_ext. intros x. by destruct (completed x).
  - rewrite JS_filter_filter. apply JS_filter_ext. intros x.
    destruct (String.eqb filter_ "active"); [by destruct (completed x)|].
    destruct (String.eqb filter_ "completed"); [by destruct (completed x)|done].
  - reflexivity.
  - unfold TaskList.
    destruct (JS.filter _ tasks) as [|t l]; simpl; split; done.
Qed.

End FrontendFurther.
